(** * Markdown Preview settings handler ([markdown_settings.py])

    A shallow embedding of the [Settings] class: a wrapper around the host
    editor's key/value settings store with an in-memory override dictionary
    on top, and the path-resolution helpers used for the front-matter
    fields [basepath], [references] and [destination].

    Python objects are embedded as the inductive type [pyobj]; Python
    dictionaries are association lists in insertion order with distinct
    keys ([dict_wf]); the host store is a finite map.  Floating point
    numbers and byte strings are left out of [pyobj]; dictionary keys are
    strings, so that [str(key)] is [key].

    Nested lists and dictionaries are embedded by value: an assignment
    stores the value, not a reference to the object of the caller.  The
    statements below are about the overrides of the [Settings] object,
    the host store and the keys of the caller's front-matter, none of
    which depends on two names sharing one nested object.

    A method that may raise returns a [res]; a method that assigns to
    [self] is a [stmt], which gives the outcome together with the object
    as the method leaves it, also when it raises.

    What the operating system and the Python runtime provide ([os.path],
    [sys.platform], [str], [importlib]) is gathered in the record [host];
    [Posix] is the instance used in the examples. *)

From Stdlib Require Import Ascii.
From stdpp Require Import gmap strings list pretty.

Local Open Scope string_scope.

(** ** Python values *)

Set Warnings "-register-all".

Inductive pyobj : Type :=
| VNone
| VBool (b : bool)
| VInt (n : Z)
| VStr (s : string)
| VList (l : list pyobj)
| VDict (d : list (string * pyobj))
| VObject (module name : string).
(* [VObject m f] is the object [getattr(importlib.import_module(m), f)]. *)

Abbreviation dict := (list (string * pyobj)).

(** ** Exceptions *)

Inductive exn : Type :=
| TypeError | KeyError | AttributeError | ValueError | ImportError.

Inductive res (A : Type) : Type :=
| Ok (a : A)
| Raise (e : exn).
Arguments Ok {A} a.
Arguments Raise {A} e.

#[global] Instance res_ret : MRet res := @Ok.
#[global] Instance res_bind : MBind res := λ A B f m,
  match m with Ok a => f a | Raise e => Raise e end.
#[global] Instance res_fmap : FMap res := λ A B f m,
  match m with Ok a => Ok (f a) | Raise e => Raise e end.

(** ** Dictionaries *)

Fixpoint dict_get (k : string) (d : dict) : option pyobj :=
  match d with
  | [] => None
  | (k', v) :: d' => if String.eqb k k' then Some v else dict_get k d'
  end.

Definition dict_has (k : string) (d : dict) : bool :=
  match dict_get k d with Some _ => true | None => false end.

(* [d[k] = v]: an existing key keeps its position, a new one goes last. *)
Fixpoint dict_set (k : string) (v : pyobj) (d : dict) : dict :=
  match d with
  | [] => [(k, v)]
  | (k', v') :: d' =>
      if String.eqb k k' then (k, v) :: d' else (k', v') :: dict_set k v d'
  end.

(* [del d[k]] for a key that is present. *)
Fixpoint dict_del (k : string) (d : dict) : dict :=
  match d with
  | [] => []
  | (k', v') :: d' => if String.eqb k k' then d' else (k', v') :: dict_del k d'
  end.

Definition dict_keys (d : dict) : list string := d.*1.

(* [dict(items)]: later items overwrite earlier ones. *)
Definition dict_of_items (items : list (string * pyobj)) : dict :=
  fold_left (λ d kv, dict_set kv.1 kv.2 d) items [].

Fixpoint distinct (ks : list string) : bool :=
  match ks with
  | [] => true
  | k :: ks' => negb (existsb (String.eqb k) ks') && distinct ks'
  end.

(* The keys of a Python dictionary are pairwise distinct. *)
Definition dict_wf (d : dict) : bool := distinct (dict_keys d).

(** ** The host: operating system and Python runtime *)

Record host : Type := {
  sys_platform : string;
  os_path_expanduser : string → string;
  os_path_join : string → string → string;
  os_path_dirname : string → string;
  os_path_basename : string → string;
  os_path_normpath : string → string;
  os_path_exists : string → bool;
  os_path_isdir : string → bool;
  str : pyobj → string;
  (* [import_attr m f] is [getattr(importlib.import_module(m), f)] *)
  import_attr : string → string → res pyobj;
}.

(** ** Module level *)

Definition BUILTIN_KEYS : list string := ["basepath"; "references"; "destination"].

(* [s.split('.')], as the pair ['.'.join(parts[:-1])], [parts[-1]]; the
   flag tells whether [s] has a dot at all. *)
Fixpoint rsplit_dot (s : string) : bool * string * string :=
  match s with
  | EmptyString => (false, "", "")
  | String c r =>
      let '(dotted, m, f) := rsplit_dot r in
      if dotted then (true, String c m, f)
      else if Ascii.eqb c "."%char then (true, "", f)
      else (false, "", String c f)
  end.

Section Model.
Variable os : host.

Definition extended_decode (d : dict) : res pyobj :=
  match dict_get "!!python/name" d with
  | Some (VStr s) =>
      let '(_, module, function) := rsplit_dot s in
      import_attr os module function
  | Some _ => Raise AttributeError
  | None => Ok (VDict d)
  end.

(* [json.dumps] accepts what JSON can write. *)
Fixpoint serializable (v : pyobj) : bool :=
  match v with
  | VList l =>
      (fix all l := match l with [] => true | x :: r => serializable x && all r end) l
  | VDict d =>
      (fix all d := match d with [] => true | (_, x) :: r => serializable x && all r end) d
  | VObject _ _ => false
  | _ => true
  end.

(* [json.loads(text, object_hook=extended_decode)] on the text written for
   [v]: every dictionary goes through the hook, innermost first. *)
Fixpoint loads_hook (v : pyobj) : res pyobj :=
  match v with
  | VList l =>
      VList <$>
      (fix go l := match l with
                   | [] => Ok []
                   | x :: r => x' ← loads_hook x; r' ← go r; Ok (x' :: r')
                   end) l
  | VDict d =>
      d' ← (fix go d := match d with
                        | [] => Ok []
                        | (k, x) :: r => x' ← loads_hook x; r' ← go r; Ok ((k, x') :: r')
                        end) d;
      extended_decode d'
  | _ => Ok v
  end.

Definition json_roundtrip (v : pyobj) : res pyobj :=
  if serializable v then loads_hook v else Raise TypeError.
End Model.

(** ** Strings and paths as Python values *)

(* [s.startswith(prefix)] *)
Definition startswith (s prefix : string) : bool := String.prefix prefix s.

Definition is_letter (c : ascii) : bool :=
  let n := nat_of_ascii c in
  (Nat.leb 65 n && Nat.leb n 90) || (Nat.leb 97 n && Nat.leb n 122).

(* [re.compile(r"(^[A-Za-z]{1}:(?:\\|/))").match(pth) is not None] *)
Definition re_win_drive (pth : string) : bool :=
  match pth with
  | String c (String colon (String sep _)) =>
      is_letter c && Ascii.eqb colon ":"%char
      && (Ascii.eqb sep "\"%char || Ascii.eqb sep "/"%char)
  | _ => false
  end.

Definition of_path (p : option string) : pyobj :=
  match p with Some s => VStr s | None => VNone end.

(* [isinstance(v, dict)], with the dictionary *)
Definition as_dict (v : pyobj) : option dict :=
  match v with VDict d => Some d | _ => None end.

(* [value if isinstance(value, list) else [value]] *)
Definition as_list (value : pyobj) : list pyobj :=
  match value with VList l => l | _ => [value] end.

(* A path or [None] *)
Definition is_path (v : pyobj) : bool :=
  match v with VNone | VStr _ => true | _ => false end.

(* What [os.path] takes for a path: [os.fspath] raises on anything else. *)
Definition fspath (v : pyobj) : res string :=
  match v with VStr s => Ok s | _ => Raise TypeError end.

(** ** The class [Settings] *)

Module Settings.

Record t : Type := {
  file_name : option string;
  _sub_settings : gmap string pyobj;
  _overrides : dict;
}.

Definition with_overrides (self : t) (o : dict) : t :=
  {| file_name := file_name self;
     _sub_settings := _sub_settings self;
     _overrides := o |}.

(* A statement that may assign to [self] and may raise: the outcome and
   the object as the statement leaves it. *)
Definition stmt : Type := t → res unit * t.

Definition seq (a b : stmt) : stmt := λ self,
  match a self with
  | (Ok _, self') => b self'
  | (Raise e, self') => (Raise e, self')
  end.

Definition skip : stmt := λ self, (Ok (), self).

Fixpoint for_each {A : Type} (body : A → stmt) (l : list A) : stmt :=
  match l with
  | [] => skip
  | x :: l' => seq (body x) (for_each body l')
  end.

Section Methods.
Variable os : host.

(* [self._sub_settings.get(key, default)] and [.has(key)] of the host *)
Definition sub_get (self : t) (key : string) (default : pyobj) : pyobj :=
  match _sub_settings self !! key with Some v => v | None => default end.

Definition sub_has (self : t) (key : string) : bool :=
  bool_decide (is_Some (_sub_settings self !! key)).

Definition parse_md_ext (self : t) : res pyobj :=
  let extensions := sub_get self "markdown_extensions" (VDict []) in
  json_roundtrip os extensions.

Definition get (self : t) (key : string) (default : pyobj) : res pyobj :=
  match dict_get key (_overrides self) with
  | Some v => Ok v
  | None =>
      if String.eqb key "markdown_extensions" then parse_md_ext self
      else Ok (sub_get self key default)
  end.

Definition set (self : t) (key : string) (value : pyobj) : t :=
  with_overrides self (dict_set key value (_overrides self)).

Definition has (self : t) (key : string) : bool :=
  let found := dict_has key (_overrides self) in
  if negb found then sub_has self key else found.

Definition is_abs (pth : option string) : bool :=
  match pth with
  | None => false
  | Some pth =>
      if startswith (sys_platform os) "win" then
        re_win_drive pth || startswith pth "//"
      else startswith pth "/"
  end.

(* [self._overrides[outer].get(key)] *)
Definition overrides_sub_get (self : t) (outer key : string) : res pyobj :=
  match dict_get outer (_overrides self) with
  | None => Raise KeyError
  | Some (VDict d) => Ok (default VNone (dict_get key d))
  | Some _ => Raise AttributeError
  end.

(* [self._overrides[outer][key] = v] *)
Definition overrides_sub_set (outer key : string) (v : pyobj) : stmt := λ self,
  match dict_get outer (_overrides self) with
  | None => (Raise KeyError, self)
  | Some (VDict d) =>
      (Ok (), with_overrides self
                (dict_set outer (VDict (dict_set key v d)) (_overrides self)))
  | Some _ => (Raise TypeError, self)
  end.

(* The loop [for base in (current_dir, basepath)] of [resolve_meta_path] *)
Fixpoint first_existing (bases : list pyobj) (target : string) : res string :=
  match bases with
  | [] => Ok target
  | VNone :: bases' => first_existing bases' target
  | base :: bases' =>
      base ← fspath base;
      let temp := os_path_join os base target in
      if os_path_exists os temp then Ok temp
      else first_existing bases' target
  end.

Definition resolve_meta_path (self : t) (target : pyobj) : res (option string) :=
  basepath ← overrides_sub_get self "builtin" "basepath";
  let current_dir := of_path (os_path_dirname os <$> file_name self) in
  match target with
  | VNone => Ok None
  | _ =>
      target ← fspath target;
      let target := os_path_expanduser os target in
      if negb (is_abs (Some target)) then
        Some <$> first_existing [current_dir; basepath] target
      else if negb (os_path_exists os target) then Ok None
      else Ok (Some target)
  end.

Definition get_base_path (self : t) (basepath : pyobj) : res (option string) :=
  basepath ← match basepath with
             | VNone => Ok None
             | _ => s ← fspath basepath; Ok (Some (os_path_expanduser os s))
             end;
  if match basepath with
     | Some p => os_path_exists os p && is_abs (Some p) && os_path_isdir os p
     | None => false
     end
  then Ok basepath
  else if match file_name self with
          | Some f => os_path_exists os f
          | None => false
          end
  then Ok (os_path_dirname os <$> file_name self)
  else Ok None.

(* [__init__]; [store] is [sublime.load_settings(settings_file)] *)
Definition init (store : gmap string pyobj) (file_name : option string) : t :=
  let self := {| file_name := file_name; _sub_settings := store; _overrides := [] |} in
  let basepath := match get_base_path self VNone with
                  | Ok p => of_path p
                  | Raise _ => VNone
                  end in
  with_overrides self
    [("builtin", VDict [("references", VList []); ("basepath", basepath)]);
     ("meta", VDict [])].

Definition add_meta (meta : dict) : stmt := λ self,
  match dict_get "meta" (_overrides self) with
  | Some (VDict stored) =>
      (Ok (), set self "meta" (VDict (dict_of_items (meta ++ stored))))
  | None => (Ok (), set self "meta" (VDict (dict_of_items (meta ++ []))))
  | Some _ => (Raise AttributeError, self)
  end.

(* The loop over the references of the front-matter *)
Fixpoint collect_refs (self : t) (value : list pyobj) : res (list pyobj) :=
  match value with
  | [] => Ok []
  | ref :: value' =>
      file_name ← resolve_meta_path self ref;
      refs ← collect_refs self value';
      Ok (match file_name with
          | Some f =>
              if negb (os_path_isdir os f)
              then VStr (os_path_normpath os f) :: refs else refs
          | None => refs
          end)
  end.

Definition apply_references (key : string) (value : pyobj) : stmt := λ self,
  let value := as_list value in
  match collect_refs self value with
  | Ok refs => overrides_sub_set "builtin" key (VList refs) self
  | Raise e => (Raise e, self)
  end.

Definition apply_destination (key : string) (value : pyobj) : stmt := λ self,
  match value with
  | VNone => skip self
  | _ =>
      match (file_name ← fspath value;
             directory ← resolve_meta_path self (VStr (os_path_dirname os file_name));
             Ok (match directory with
                 | Some directory =>
                     os_path_join os directory (os_path_basename os file_name)
                 | None => file_name
                 end)) with
      | Ok file_name =>
          if negb (os_path_exists os file_name) || negb (os_path_isdir os file_name)
          then overrides_sub_set "builtin" key (VStr file_name) self
          else skip self
      | Raise e => (Raise e, self)
      end
  end.

Definition apply_meta (key : string) (value : pyobj) : stmt :=
  let value := match value with
               | VList l => VList ((λ v, VStr (str os v)) <$> l)
               | _ => VStr (str os value)
               end in
  overrides_sub_set "meta" key value.

(* The body of the loop [for key, value in frontmatter.items()] *)
Definition apply_item (item : string * pyobj) : stmt :=
  let '(key, value) := item in
  match (if String.eqb key "settings" then as_dict value else None) with
  | Some settings =>
      λ self, (Ok (), fold_left (λ s kv, set s kv.1 kv.2) settings self)
  | None =>
      if existsb (String.eqb key) BUILTIN_KEYS then
        seq (if String.eqb key "references" then apply_references key value else skip)
            (if String.eqb key "destination" then apply_destination key value else skip)
      else apply_meta key value
  end.

(* Returns the outcome, the object and the caller's dictionary as the
   call leaves them. *)
Definition apply_frontmatter (frontmatter : dict) (self : t) : res unit * t * dict :=
  let '(r, self, frontmatter) :=
    match dict_get "basepath" frontmatter with
    | Some value =>
        match get_base_path self value with
        | Ok p =>
            match overrides_sub_set "builtin" "basepath" (of_path p) self with
            | (Ok _, self') => (Ok (), self', dict_del "basepath" frontmatter)
            | (Raise e, self') => (Raise e, self', frontmatter)
            end
        | Raise e => (Raise e, self, frontmatter)
        end
    | None => (Ok (), self, frontmatter)
    end in
  match r with
  | Ok _ => (for_each apply_item frontmatter self, frontmatter)
  | Raise e => (Raise e, self, frontmatter)
  end.

(** Callers and observers *)

(* [self.get("builtin")[key]], nothing when it raises *)
Definition get_builtin (self : t) (key : string) : option pyobj :=
  match get self "builtin" VNone with
  | Ok (VDict builtin) => dict_get key builtin
  | _ => None
  end.

(* A caller that goes on after an exception: the object after a
   sequence of mutating calls. *)
Inductive op : Type :=
| Set_ (key : string) (value : pyobj)
| AddMeta (meta : dict)
| ApplyFrontmatter (frontmatter : dict).

Definition run_op (self : t) (o : op) : t :=
  match o with
  | Set_ key value => set self key value
  | AddMeta meta => (add_meta meta self).2
  | ApplyFrontmatter frontmatter => (apply_frontmatter frontmatter self).1.2
  end.

Definition run (ops : list op) (self : t) : t := fold_left run_op ops self.

(** The path rules in the words of their description *)

(* The joins of a relative target: the document's directory first,
   the stored base path second, each when there is one. *)
Definition candidates (self : t) (basepath : option string) (target : string)
  : list string :=
  (λ base, os_path_join os base target)
    <$> omap id [os_path_dirname os <$> file_name self; basepath].

Definition resolve_meta_path_spec (self : t) (basepath : option string)
    (target : option string) : option string :=
  match target with
  | None => None
  | Some target =>
      let target := os_path_expanduser os target in
      if is_abs (Some target) then
        if os_path_exists os target then Some target else None
      else
        Some (default target (List.find (os_path_exists os)
                                        (candidates self basepath target)))
  end.

(* A reference is kept when it resolves to a path that is not a
   directory; what is stored is the normalized path. *)
Definition kept_reference (self : t) (ref : pyobj) : option pyobj :=
  match resolve_meta_path self ref with
  | Ok (Some f) =>
      if os_path_isdir os f then None else Some (VStr (os_path_normpath os f))
  | _ => None
  end.

(* The destination of a front-matter value [value]: the resolved
   directory joined with the base name, or [value] itself when the
   directory does not resolve. *)
Definition destination_path (self : t) (value : string) : res string :=
  directory ← resolve_meta_path self (VStr (os_path_dirname os value));
  Ok (match directory with
      | Some directory => os_path_join os directory (os_path_basename os value)
      | None => value
      end).

End Methods.

(** Objects and front-matter on which no call raises *)

(* [_overrides["builtin"]] is a dictionary, with a path or [None] for its
   base path. *)
Definition builtin_ok (self : t) : bool :=
  match dict_get "builtin" (_overrides self) with
  | Some (VDict builtin) => is_path (default VNone (dict_get "basepath" builtin))
  | _ => false
  end.

(* [_overrides["meta"]] is a dictionary. *)
Definition meta_ok (self : t) : bool :=
  match dict_get "meta" (_overrides self) with
  | Some (VDict _) => true
  | _ => false
  end.

(* The builtin fields hold paths, and a [settings] dictionary leaves
   [builtin] and [meta] alone. *)
Definition typed_item (item : string * pyobj) : bool :=
  let '(key, value) := item in
  if String.eqb key "settings" then
    match value with
    | VDict settings => negb (dict_has "builtin" settings) && negb (dict_has "meta" settings)
    | _ => true
    end
  else if String.eqb key "references" then forallb is_path (as_list value)
  else if String.eqb key "basepath" || String.eqb key "destination" then is_path value
  else true.

Definition typed_frontmatter (frontmatter : dict) : bool :=
  forallb typed_item frontmatter.

(* The front-matter has no [settings] dictionary that assigns [key]. *)
Definition settings_keep (key : string) (frontmatter : dict) : bool :=
  match dict_get "settings" frontmatter with
  | Some (VDict settings) => negb (dict_has key settings)
  | _ => true
  end.

End Settings.

(** ** A POSIX host for the examples

    [posixpath] of CPython on strings, a file system given by the lists of
    its directories and of its files (paths are compared after
    [normpath], relative ones from the root), the home directory
    [/home/user] and no other user, and [str] and [repr] on [pyobj]. *)

Module Posix.

Definition is_slash (c : ascii) : bool := Ascii.eqb c "/"%char.

Definition is_empty (s : string) : bool :=
  match s with EmptyString => true | _ => false end.

(* [(p[:i], p[i:])] for [i = p.rfind('/') + 1] *)
Fixpoint rsplit_slash (p : string) : string * string :=
  match p with
  | EmptyString => ("", "")
  | String c r =>
      let '(head, tail) := rsplit_slash r in
      if negb (is_empty head) then (String c head, tail)
      else if is_slash c then ("/", tail)
      else ("", String c tail)
  end.

(* [s.rstrip('/')] *)
Fixpoint rstrip_slash (s : string) : string :=
  match s with
  | EmptyString => ""
  | String c r =>
      let r' := rstrip_slash r in
      if is_empty r' && is_slash c then "" else String c r'
  end.

Fixpoint all_slashes (s : string) : bool :=
  match s with
  | EmptyString => true
  | String c r => is_slash c && all_slashes r
  end.

Fixpoint endswith_slash (s : string) : bool :=
  match s with
  | EmptyString => false
  | String c EmptyString => is_slash c
  | String _ r => endswith_slash r
  end.

Definition join (a b : string) : string :=
  if startswith b "/" then b
  else if is_empty a || endswith_slash a then a +:+ b
  else a +:+ "/" +:+ b.

Definition dirname (p : string) : string :=
  let head := (rsplit_slash p).1 in
  if negb (is_empty head) && negb (all_slashes head) then rstrip_slash head else head.

Definition basename (p : string) : string := (rsplit_slash p).2.

(* [s.split('/')] *)
Fixpoint split_slash (s : string) : list string :=
  match s with
  | EmptyString => [""]
  | String c r =>
      if is_slash c then "" :: split_slash r
      else match split_slash r with
           | comp :: comps => String c comp :: comps
           | [] => [String c ""]
           end
  end.

(* ['/'.join(comps)] *)
Fixpoint join_slash (comps : list string) : string :=
  match comps with
  | [] => ""
  | [comp] => comp
  | comp :: comps' => comp +:+ "/" +:+ join_slash comps'
  end.

(* One round of the loop of [normpath]; [new_comps] is kept reversed. *)
Definition norm_step (initial_slashes : nat) (new_comps : list string) (comp : string)
  : list string :=
  if String.eqb comp "" || String.eqb comp "." then new_comps
  else if negb (String.eqb comp "..")
          || (Nat.eqb initial_slashes 0 && bool_decide (new_comps = []))
          || match new_comps with last :: _ => String.eqb last ".." | [] => false end
  then comp :: new_comps
  else tail new_comps.

Definition normpath (path : string) : string :=
  if is_empty path then "."
  else
    let initial_slashes :=
      if startswith path "/" then
        if startswith path "//" && negb (startswith path "///") then 2 else 1
      else 0 in
    let comps := rev (fold_left (norm_step initial_slashes) (split_slash path) []) in
    let path := join_slash comps in
    let path := match initial_slashes with
                | 0 => path
                | 1 => "/" +:+ path
                | _ => "//" +:+ path
                end in
    if is_empty path then "." else path.

Definition HOME : string := "/home/user".

(* [path[i:]] for the first slash at [i >= 1], and whether [i = 1] *)
Fixpoint from_slash (s : string) : string :=
  match s with
  | EmptyString => ""
  | String c r => if is_slash c then s else from_slash r
  end.

Definition expanduser (path : string) : string :=
  match path with
  | String "~" rest =>
      if is_empty rest || startswith rest "/" then
        let p := rstrip_slash HOME +:+ from_slash rest in
        if is_empty p then "/" else p
      else path
  | _ => path
  end.

Section Files.
Variables dirs files : list string.

Definition located (p : string) : string := normpath (join "/" p).

Definition isdir (p : string) : bool :=
  existsb (String.eqb (located p)) (located <$> dirs).

Definition exists_ (p : string) : bool :=
  isdir p || existsb (String.eqb (located p)) (located <$> files).
End Files.

Definition hex_digit (n : nat) : ascii :=
  ascii_of_nat (if Nat.ltb n 10 then 48 + n else 87 + n).

Definition repr_char (quote : ascii) (c : ascii) : string :=
  let n := nat_of_ascii c in
  if Ascii.eqb c "\"%char then "\\"
  else if Ascii.eqb c quote then String "\"%char (String quote "")
  else if Nat.eqb n 10 then "\n"
  else if Nat.eqb n 13 then "\r"
  else if Nat.eqb n 9 then "\t"
  else if Nat.ltb n 32 || Nat.eqb n 127 then
    String "\"%char (String "x"%char
      (String (hex_digit (n / 16)) (String (hex_digit (n mod 16)) "")))
  else String c "".

Fixpoint contains (c : ascii) (s : string) : bool :=
  match s with
  | EmptyString => false
  | String c' r => Ascii.eqb c c' || contains c r
  end.

Fixpoint repr_chars (quote : ascii) (s : string) : string :=
  match s with
  | EmptyString => ""
  | String c r => repr_char quote c +:+ repr_chars quote r
  end.

Definition repr_str (s : string) : string :=
  let dquote := ascii_of_nat 34 in
  let quote := if contains "'"%char s && negb (contains dquote s)
               then dquote else "'"%char in
  String quote (repr_chars quote s) +:+ String quote "".

Fixpoint repr (v : pyobj) : string :=
  match v with
  | VNone => "None"
  | VBool true => "True"
  | VBool false => "False"
  | VInt n => pretty n
  | VStr s => repr_str s
  | VList l =>
      "[" +:+
      (fix items l := match l with
                      | [] => ""
                      | [x] => repr x
                      | x :: r => repr x +:+ ", " +:+ items r
                      end) l +:+ "]"
  | VDict d =>
      "{" +:+
      (fix items d := match d with
                      | [] => ""
                      | [(k, x)] => repr_str k +:+ ": " +:+ repr x
                      | (k, x) :: r => repr_str k +:+ ": " +:+ repr x +:+ ", " +:+ items r
                      end) d +:+ "}"
  | VObject m f => "<" +:+ m +:+ "." +:+ f +:+ ">"
  end.

Definition str (v : pyobj) : string :=
  match v with VStr s => s | _ => repr v end.

(* No module can be imported. *)
Definition import_attr (module function : string) : res pyobj :=
  if is_empty module then Raise ValueError else Raise ImportError.

Definition os (dirs files : list string) : host :=
  Build_host "linux" expanduser join dirname basename normpath
             (exists_ dirs files) (isdir dirs) str import_attr.

End Posix.

(** ** A document and its front-matter, for the examples *)

Module Example.

Definition os : host :=
  Posix.os ["/"; "/docs"; "/out"; "/base"; "/home"; "/home/user"]
           ["/docs/a.md"; "/docs/ref.md"; "/base/shared.md"; "/home/user/notes.md"].

(* The host store: the application's defaults *)
Definition store : gmap string pyobj :=
  {[ "destination" := VStr "/app/out.html"; "enable_highlight" := VBool true ]}.

Definition self : Settings.t := Settings.init os store (Some "/docs/a.md").

Definition frontmatter : dict :=
  [("basepath", VStr "/base");
   ("references",
    VList [VStr "ref.md"; VStr "shared.md"; VStr "/missing.md"; VStr "/out";
           VNone; VStr "nowhere.md"; VStr "~/notes.md"]);
   ("destination", VStr "/out/x.html");
   ("title", VStr "T");
   ("tags", VList [VStr "a"; VInt 1])].

Definition after : res () * Settings.t * dict :=
  Settings.apply_frontmatter os frontmatter self.

Definition self' : Settings.t := after.1.2.
Definition frontmatter' : dict := after.2.

End Example.

(** ** Further observers *)

(* [s] has a dot. *)
Fixpoint dotted (s : string) : bool :=
  match s with
  | EmptyString => false
  | String c r => Ascii.eqb c "."%char || dotted r
  end.

(* A value that JSON can write and in which no dictionary has the key
   ['!!python/name']. *)
Fixpoint plain (v : pyobj) : bool :=
  match v with
  | VList l =>
      (fix all l := match l with [] => true | x :: r => plain x && all r end) l
  | VDict d =>
      negb (dict_has "!!python/name" d)
      && (fix all d := match d with [] => true | (_, x) :: r => plain x && all r end) d
  | VObject _ _ => false
  | _ => true
  end.

(* What the front-matter loop stores as meta data for a value:
   [[str(v) for v in value]] for a list, [str(value)] otherwise. *)
Definition meta_value (os : host) (value : pyobj) : pyobj :=
  match value with
  | VList l => VList ((λ v, VStr (str os v)) <$> l)
  | _ => VStr (str os value)
  end.

(* [self.get("meta")[key]], nothing when it raises *)
Definition get_meta (os : host) (self : Settings.t) (key : string) : option pyobj :=
  match Settings.get os self "meta" VNone with
  | Ok (VDict meta) => dict_get key meta
  | _ => None
  end.

(* The first step of [apply_frontmatter], before its loop: the base path
   of the front-matter, if any, is stored and its key deleted from the
   caller's dictionary.  Gives the outcome, the object and the dictionary
   the loop then runs over. *)
Definition basepath_step (os : host) (frontmatter : dict) (self : Settings.t)
  : res unit * Settings.t * dict :=
  match dict_get "basepath" frontmatter with
  | Some value =>
      match Settings.get_base_path os self value with
      | Ok p =>
          match Settings.overrides_sub_set "builtin" "basepath" (of_path p) self with
          | (Ok _, self') => (Ok (), self', dict_del "basepath" frontmatter)
          | (Raise e, self') => (Raise e, self', frontmatter)
          end
      | Raise e => (Raise e, self, frontmatter)
      end
  | None => (Ok (), self, frontmatter)
  end.



(** ** More documents, for the examples of the further properties *)

Module Example2.

(* A host store with Markdown extensions and no Python names *)
Definition extensions : pyobj :=
  VList [VStr "markdown.extensions.toc";
         VDict [("markdown.extensions.codehilite",
                 VDict [("guess_lang", VBool false); ("linenums", VNone)])]].

Definition store : gmap string pyobj :=
  {[ "markdown_extensions" := extensions; "enable_highlight" := VBool true ]}.

(* A document that has no file *)
Definition self : Settings.t := Settings.init Example.os store None.

Definition named : dict := [("!!python/name", VStr "pymdownx.emoji.to_svg")].

Definition with_settings : dict :=
  [("title", VStr "T");
   ("settings", VDict [("enable_highlight", VBool false); ("theme", VStr "dark")]);
   ("tags", VList [VStr "a"; VInt 1])].


End Example2.

(** * Properties *)

Import Settings.

Arguments is_abs : simpl never.

(** ** Dictionaries *)

Section DictFacts.
Implicit Types (d : dict) (k : string) (v : pyobj).

Lemma dict_get_set_eq k v d : dict_get k (dict_set k v d) = Some v.
Proof.
  induction d as [|[k' v'] d IH]; simpl.
  - by rewrite String.eqb_refl.
  - destruct (String.eqb_spec k k') as [->|Hne]; simpl.
    + by rewrite String.eqb_refl.
    + destruct (String.eqb_spec k k'); [done | apply IH].
Qed.

Lemma dict_get_set_ne k k' v d :
  k ≠ k' → dict_get k' (dict_set k v d) = dict_get k' d.
Proof.
  intros Hne. induction d as [|[k0 v0] d IH]; simpl.
  - destruct (String.eqb_spec k' k); [congruence | done].
  - destruct (String.eqb_spec k k0) as [->|]; simpl.
    + destruct (String.eqb_spec k' k0); [congruence | done].
    + destruct (String.eqb_spec k' k0); [done | apply IH].
Qed.

Lemma dict_has_set_eq k v d : dict_has k (dict_set k v d) = true.
Proof. unfold dict_has. by rewrite dict_get_set_eq. Qed.

Lemma dict_get_del_ne k k' d :
  k ≠ k' → dict_get k' (dict_del k d) = dict_get k' d.
Proof.
  intros Hne. induction d as [|[k0 v0] d IH]; simpl; [done|].
  destruct (String.eqb_spec k k0) as [->|]; simpl.
  - destruct (String.eqb_spec k' k0); [congruence | done].
  - destruct (String.eqb_spec k' k0); [done | apply IH].
Qed.

Lemma existsb_eqb_elem (k : string) (ks : list string) :
  existsb (String.eqb k) ks = true ↔ k ∈ ks.
Proof.
  rewrite existsb_exists. split.
  - intros (x & Hin & Heq). apply String.eqb_eq in Heq as ->.
    by apply list_elem_of_In.
  - intros Hin. exists k. split; [by apply list_elem_of_In | apply String.eqb_refl].
Qed.

Lemma distinct_NoDup (ks : list string) : distinct ks = true ↔ NoDup ks.
Proof.
  induction ks as [|k ks IH]; simpl.
  - split; [constructor | done].
  - rewrite andb_true_iff, negb_true_iff, IH, NoDup_cons.
    rewrite <- not_true_iff_false, existsb_eqb_elem. done.
Qed.

Lemma dict_get_None k d : dict_get k d = None ↔ k ∉ dict_keys d.
Proof.
  unfold dict_keys. induction d as [|[k' v'] d IH]; simpl.
  - split; [intros _; apply not_elem_of_nil | done].
  - rewrite not_elem_of_cons. destruct (String.eqb_spec k k') as [->|Hne].
    + split; [done | intros [? _]; done].
    + rewrite IH. split; [by split | by intros [_ ?]].
Qed.

Lemma dict_get_Some_elem k v d : dict_get k d = Some v → (k, v) ∈ d.
Proof.
  induction d as [|[k' v'] d IH]; simpl; [done|].
  destruct (String.eqb_spec k k') as [->|].
  - intros [= ->]. left.
  - intros H. right. by apply IH.
Qed.

Lemma dict_get_elem k v d : dict_wf d = true → (k, v) ∈ d → dict_get k d = Some v.
Proof.
  unfold dict_wf, dict_keys. rewrite distinct_NoDup.
  induction d as [|[k' v'] d IH]; simpl.
  - intros _ H. by apply elem_of_nil in H.
  - rewrite NoDup_cons. intros [Hk Hd] Hin.
    apply elem_of_cons in Hin as [[= <- <-]|Hin].
    + by rewrite String.eqb_refl.
    + destruct (String.eqb_spec k k') as [->|]; [|by apply IH].
      exfalso. apply Hk. apply list_elem_of_fmap. by exists (k', v).
Qed.

Lemma filter_all {A} (P : A → Prop) `{!∀ x, Decision (P x)} (l : list A) :
  Forall P l → filter P l = l.
Proof.
  induction 1 as [|x l Hx _ IH]; [done|].
  rewrite filter_cons_True by done. by rewrite IH.
Qed.

(* Deleting a key of a well-formed dictionary removes its only item. *)
Lemma dict_keys_del k d :
  dict_wf d = true →
  dict_keys (dict_del k d) = filter (λ k', k' ≠ k) (dict_keys d).
Proof.
  unfold dict_wf, dict_keys. rewrite distinct_NoDup.
  induction d as [|[k' v'] d IH]; simpl; [done|].
  rewrite NoDup_cons. intros [Hk Hd].
  destruct (String.eqb_spec k k') as [->|Hne].
  - rewrite filter_cons_False by naive_solver.
    symmetry. apply filter_all. apply Forall_forall. naive_solver.
  - rewrite filter_cons_True by naive_solver. simpl. f_equal. by apply IH.
Qed.

Lemma dict_wf_del k d : dict_wf d = true → dict_wf (dict_del k d) = true.
Proof.
  intros Hwf. unfold dict_wf. rewrite dict_keys_del by done.
  apply distinct_NoDup. apply NoDup_filter. by apply distinct_NoDup.
Qed.

Lemma dict_get_del_eq k d : dict_wf d = true → dict_get k (dict_del k d) = None.
Proof.
  intros Hwf. apply dict_get_None. rewrite dict_keys_del by done.
  rewrite list_elem_of_filter. by intros [? _].
Qed.

Lemma dict_get_app k d1 d2 :
  dict_get k (d1 ++ d2) =
  match dict_get k d1 with Some v => Some v | None => dict_get k d2 end.
Proof.
  induction d1 as [|[k' v'] d1 IH]; simpl; [done|].
  by destruct (String.eqb k k').
Qed.

(* Looking a key up in [dict(items)] finds its last item. *)
Lemma dict_get_fold_set k items d :
  dict_get k (fold_left (λ d kv, dict_set kv.1 kv.2 d) items d) =
  match dict_get k (reverse items) with Some v => Some v | None => dict_get k d end.
Proof.
  revert d. induction items as [|[k' v'] items IH]; intros d; simpl; [done|].
  rewrite IH, reverse_cons, dict_get_app.
  destruct (dict_get k (reverse items)); [done|]. simpl.
  destruct (String.eqb_spec k k') as [->|Hne].
  - apply dict_get_set_eq.
  - by apply dict_get_set_ne.
Qed.

Lemma dict_get_reverse k d :
  dict_wf d = true → dict_get k (reverse d) = dict_get k d.
Proof.
  intros Hwf.
  assert (Hwf' : dict_wf (reverse d) = true).
  { unfold dict_wf, dict_keys in *. rewrite distinct_NoDup in *.
    rewrite fmap_reverse. by rewrite reverse_Permutation. }
  destruct (dict_get k d) as [v|] eqn:Hd.
  - apply dict_get_elem; [done|]. apply elem_of_reverse. by apply dict_get_Some_elem.
  - apply dict_get_None. apply dict_get_None in Hd.
    unfold dict_keys in *. by rewrite fmap_reverse, elem_of_reverse.
Qed.

Lemma dict_get_of_items k meta stored :
  dict_wf meta = true → dict_wf stored = true →
  dict_get k (dict_of_items (meta ++ stored)) =
  match dict_get k stored with Some v => Some v | None => dict_get k meta end.
Proof.
  intros Hm Hs. unfold dict_of_items.
  rewrite dict_get_fold_set, reverse_app, dict_get_app.
  rewrite !dict_get_reverse by done. simpl.
  by destruct (dict_get k stored), (dict_get k meta).
Qed.

End DictFacts.

(** ** Statements *)

Section Stable.
Context (R : relation t) `{!PreOrder R}.

(* A statement relates the object it leaves to the one it found,
   whether it returns or raises. *)
Definition stable (c : stmt) : Prop := ∀ self, R self (c self).2.

Lemma stable_skip : stable skip.
Proof. intros self. simpl. reflexivity. Qed.

Lemma stable_seq a b : stable a → stable b → stable (seq a b).
Proof.
  intros Ha Hb self. unfold seq. specialize (Ha self).
  destruct (a self) as [[[]|e] self1]; simpl in *; [|done].
  etrans; [exact Ha | apply Hb].
Qed.

Lemma stable_for_each {A} (body : A → stmt) (l : list A) :
  (∀ x, x ∈ l → stable (body x)) → stable (for_each body l).
Proof.
  induction l as [|x l IH]; intros Hl; simpl.
  - apply stable_skip.
  - apply stable_seq; [apply Hl; left|].
    apply IH. intros y Hy. apply Hl. by right.
Qed.
End Stable.

Lemma seq_Ok a b self self' :
  seq a b self = (Ok (), self') ↔
  ∃ self1, a self = (Ok (), self1) ∧ b self1 = (Ok (), self').
Proof.
  unfold seq. split.
  - destruct (a self) as [[[]|e] self1]; [eauto | done].
  - intros (self1 & -> & Hb). done.
Qed.

Lemma for_each_app {A} (body : A → stmt) l1 l2 self self' :
  for_each body (l1 ++ l2) self = (Ok (), self') ↔
  ∃ self1, for_each body l1 self = (Ok (), self1)
           ∧ for_each body l2 self1 = (Ok (), self').
Proof.
  revert self. induction l1 as [|x l1 IH]; intros self; simpl.
  - split; [eauto | by intros (? & [= <-] & ?)].
  - rewrite seq_Ok. split.
    + intros (s1 & Hx & Hl). apply IH in Hl as (s2 & H1 & H2).
      exists s2. split; [|done]. apply seq_Ok. eauto.
    + intros (s2 & H1 & H2). apply seq_Ok in H1 as (s1 & Hx & H1).
      exists s1. split; [done|]. apply IH. eauto.
Qed.

(** ** The host store is read only *)

(* The object differs from the one before in its overrides at most. *)
Definition same_host : relation t := λ self self',
  file_name self' = file_name self ∧ _sub_settings self' = _sub_settings self.

#[local] Instance same_host_preorder : PreOrder same_host.
Proof.
  split.
  - by intros self.
  - intros s1 s2 s3 [H1 H2] [H3 H4]. split; congruence.
Qed.

Section Frame.
Variable os : host.

Lemma same_host_with_overrides self o : same_host self (with_overrides self o).
Proof. done. Qed.

Lemma same_host_set self key value : same_host self (set self key value).
Proof. done. Qed.

Lemma same_host_sub_set outer key v : stable same_host (overrides_sub_set outer key v).
Proof.
  intros self. unfold overrides_sub_set.
  by destruct (dict_get outer (_overrides self)) as [[]|].
Qed.

Lemma same_host_fold_set settings self :
  same_host self (fold_left (λ s kv, set s kv.1 kv.2) settings self).
Proof.
  revert self. induction settings as [|kv settings IH]; intros self; simpl; [done|].
  etrans; [|apply IH]. apply same_host_set.
Qed.

Lemma same_host_apply_item item : stable same_host (apply_item os item).
Proof.
  destruct item as [key value]. unfold apply_item.
  destruct (if String.eqb key "settings" then as_dict value else None) as [settings|].
  - intros self. apply same_host_fold_set.
  - destruct (existsb (String.eqb key) BUILTIN_KEYS).
    + apply stable_seq; [apply _| |].
      * destruct (String.eqb key "references"); [|apply stable_skip; apply _].
        intros self. unfold apply_references.
        destruct (collect_refs _ _ _); [apply same_host_sub_set | done].
      * destruct (String.eqb key "destination"); [|apply stable_skip; apply _].
        intros self. unfold apply_destination.
        destruct value; try done;
          match goal with
          | |- context [match ?r with Ok _ => _ | Raise _ => _ end] => destruct r
          end; try done;
          match goal with
          | |- context [if ?b then _ else _] => destruct b
          end; try done; apply same_host_sub_set.
    + apply same_host_sub_set.
Qed.

Lemma same_host_apply_frontmatter frontmatter self :
  same_host self (apply_frontmatter os frontmatter self).1.2.
Proof.
  unfold apply_frontmatter.
  destruct (dict_get "basepath" frontmatter) as [value|].
  - destruct (get_base_path os self value) as [p|e]; [|done].
    pose proof (same_host_sub_set "builtin" "basepath" (of_path p) self) as H1.
    destruct (overrides_sub_set _ _ _ self) as [[[]|e] self1]; simpl in *; [|done].
    etrans; [exact H1|].
    apply (stable_for_each same_host). intros. apply same_host_apply_item.
  - simpl. apply (stable_for_each same_host). intros. apply same_host_apply_item.
Qed.

Lemma same_host_add_meta meta : stable same_host (add_meta meta).
Proof.
  intros self. unfold add_meta.
  by destruct (dict_get "meta" (_overrides self)) as [[]|].
Qed.

Lemma same_host_run_op self o : same_host self (run_op os self o).
Proof.
  destruct o; simpl.
  - apply same_host_set.
  - apply same_host_add_meta.
  - apply same_host_apply_frontmatter.
Qed.

(** C8. No sequence of the mutating operations [set], [add_meta] and
    [apply_frontmatter] writes to the wrapped host store: whatever each
    call does (return or raise), the object after the sequence has the
    host store and the file name it had before, and differs in its
    override dictionary only. *)
Theorem mutators_leave_host_store ops self :
  _sub_settings (run os ops self) = _sub_settings self
  ∧ run os ops self = with_overrides self (_overrides (run os ops self)).
Proof.
  assert (H : same_host self (run os ops self)).
  { unfold run. revert self. induction ops as [|o ops IH]; intros self; simpl; [done|].
    etrans; [apply same_host_run_op | apply IH]. }
  destruct H as [Hf Hs]. split; [done|].
  destruct (run os ops self) as [f s o]. unfold with_overrides. simpl in *. congruence.
Qed.

End Frame.

(** ** Reading and writing settings *)

Section Lookup.
Variable os : host.

Lemma dict_has_keys k (d : dict) : dict_has k d = true ↔ k ∈ dict_keys d.
Proof.
  unfold dict_has. destruct (dict_get k d) eqn:H.
  - split; [intros _ | done]. destruct (decide (k ∈ dict_keys d)) as [|Hn]; [done|].
    apply dict_get_None in Hn. congruence.
  - apply dict_get_None in H. split; [done | by intros ?].
Qed.

Lemma json_roundtrip_empty : json_roundtrip os (VDict []) = Ok (VDict []).
Proof. reflexivity. Qed.

(** C1 (amended). [get(key, default)] returns the value stored in the
    override dictionary when [key] is one of its keys.  Otherwise, for
    every key but ['markdown_extensions'], it falls through to the host
    store and returns the store's value, or [default] when the store has
    no entry.  For ['markdown_extensions'] it returns the store's value
    (an empty dictionary when the store has no entry) as decoded by
    [parse_md_ext], whatever [default] is. *)
Theorem get_override_then_host self key d :
  (key ∈ dict_keys (_overrides self) →
     ∃ v, dict_get key (_overrides self) = Some v ∧ get os self key d = Ok v)
  ∧ (key ∉ dict_keys (_overrides self) → key ≠ "markdown_extensions" →
     (∀ v, _sub_settings self !! key = Some v → get os self key d = Ok v)
     ∧ (_sub_settings self !! key = None → get os self key d = Ok d))
  ∧ (key ∉ dict_keys (_overrides self) → key = "markdown_extensions" →
     (∀ v, _sub_settings self !! key = Some v →
           get os self key d = json_roundtrip os v)
     ∧ (_sub_settings self !! key = None → get os self key d = Ok (VDict []))).
Proof.
  unfold get. split; [|split].
  - intros Hin. destruct (dict_get key (_overrides self)) as [v|] eqn:Hget; [eauto|].
    by apply dict_get_None in Hget.
  - intros Hnot Hne. apply dict_get_None in Hnot. rewrite Hnot.
    destruct (String.eqb_spec key "markdown_extensions"); [done|].
    unfold sub_get. split; [intros v -> | intros ->]; done.
  - intros Hnot ->. apply dict_get_None in Hnot. rewrite Hnot. simpl.
    unfold parse_md_ext, sub_get. split; [intros v -> | intros ->]; done.
Qed.

(** C3. Immediately after [set(key, value)], [has(key)] is true and
    [get(key, default)] returns [value] for every default. *)
Theorem set_then_has_and_get self key value :
  has (set self key value) key = true
  ∧ ∀ d, get os (set self key value) key d = Ok value.
Proof.
  split.
  - unfold has, set. simpl. by rewrite dict_has_set_eq.
  - intros d. unfold get, set. simpl. by rewrite dict_get_set_eq.
Qed.

(** C10. [add_meta] gives precedence to the stored meta data: a key of
    the stored meta dictionary keeps its stored value, also when the
    argument has the key; a key of the argument alone is added with the
    argument's value. *)
Theorem add_meta_keeps_stored self meta stored :
  dict_wf meta = true →
  dict_wf stored = true →
  dict_get "meta" (_overrides self) = Some (VDict stored) →
  ∃ self' merged,
    add_meta meta self = (Ok (), self')
    ∧ dict_get "meta" (_overrides self') = Some (VDict merged)
    ∧ ∀ k, (∀ v, dict_get k stored = Some v → dict_get k merged = Some v)
           ∧ (dict_get k stored = None → dict_get k merged = dict_get k meta).
Proof.
  intros Hm Hs Hstored. unfold add_meta. rewrite Hstored.
  eexists _, _. split; [done|]. split.
  - unfold set. simpl. apply dict_get_set_eq.
  - intros k. rewrite dict_get_of_items by done.
    split; [intros v -> | intros ->]; done.
Qed.

End Lookup.

(** ** Path resolution *)

Section Paths.
Variable os : host.

(** C5 (amended). [get_base_path] returns the user-expanded input when
    that path is absolute, exists and is a directory; otherwise the
    directory of the document's file name when there is a file name and
    it exists on disk; otherwise [None].  The user-expanded input is
    returned exactly when it is absolute, existing and a directory, or
    when it is not and is what the later branches return: the directory
    of the document's existing file, or [None] for a [None] input of a
    document with no file on disk. *)
Theorem get_base_path_cases self (basepath : option string) :
  let expanded := os_path_expanduser os <$> basepath in
  let valid :=
    match expanded with
    | Some p => is_abs os (Some p) && os_path_exists os p && os_path_isdir os p
    | None => false
    end in
  let on_disk :=
    match file_name self with Some f => os_path_exists os f | None => false end in
  (valid = true → get_base_path os self (of_path basepath) = Ok expanded)
  ∧ (valid = false → on_disk = true →
     get_base_path os self (of_path basepath)
     = Ok (os_path_dirname os <$> file_name self))
  ∧ (valid = false → on_disk = false →
     get_base_path os self (of_path basepath) = Ok None)
  ∧ (get_base_path os self (of_path basepath) = Ok expanded ↔
     valid = true
     ∨ (valid = false ∧ on_disk = true
        ∧ os_path_dirname os <$> file_name self = expanded)
     ∨ (valid = false ∧ on_disk = false ∧ expanded = None)).
Proof.
  intros expanded valid on_disk.
  assert (Hv : get_base_path os self (of_path basepath) =
               if valid then Ok expanded
               else if on_disk then Ok (os_path_dirname os <$> file_name self)
               else Ok None).
  { unfold get_base_path, valid, on_disk, expanded.
    destruct basepath as [s|]; simpl; [|done].
    set (p := os_path_expanduser os s).
    by destruct (os_path_exists os p), (is_abs os (Some p)), (os_path_isdir os p). }
  rewrite Hv. split; [by intros ->|]. split; [by intros -> ->|].
  split; [by intros -> ->|].
  destruct valid, on_disk.
  - split; [by left | done].
  - split; [by left | done].
  - split.
    + intros [= Heq]. right. by left.
    + intros [?|[(_ & _ & Heq)|(_ & ? & _)]]; [done | by rewrite Heq | done].
  - split.
    + intros [= Heq]. right. right. by rewrite <- Heq.
    + intros [?|[(_ & ? & _)|(_ & _ & Heq)]]; [done | done | by rewrite Heq].
Qed.

Lemma first_existing_find self basepath target :
  first_existing os
    [of_path (os_path_dirname os <$> file_name self); of_path basepath] target
  = Ok (default target (List.find (os_path_exists os)
                                  (candidates os self basepath target))).
Proof.
  unfold candidates.
  destruct (file_name self) as [f|], basepath as [b|]; simpl;
    repeat match goal with
           | |- context [os_path_exists os ?p] => destruct (os_path_exists os p)
           end; done.
Qed.

(** C4. With a base path (or [None]) stored under the builtin
    overrides, [resolve_meta_path] returns [None] for a [None] target.
    Any other target is user-expanded first.  An absolute one is
    returned unchanged when it exists and replaced by [None] when it
    does not.  A relative one is joined to the document's directory
    first and to the stored base path second, the first join that
    exists is returned, and the expanded target itself when neither
    exists. *)
Theorem resolve_meta_path_rules self (basepath target : option string) :
  overrides_sub_get self "builtin" "basepath" = Ok (of_path basepath) →
  resolve_meta_path os self (of_path target)
  = Ok (resolve_meta_path_spec os self basepath target).
Proof.
  intros Hbase. unfold resolve_meta_path, resolve_meta_path_spec.
  rewrite Hbase. destruct target as [target|]; [|done].
  cbn [of_path fspath mbind res_bind].
  destruct (is_abs os (Some (os_path_expanduser os target))).
  - cbn [negb]. by destruct (os_path_exists os _).
  - cbn [negb]. rewrite (first_existing_find self basepath). done.
Qed.

End Paths.

(** ** What a call of [apply_frontmatter] leaves of the builtin overrides *)

(* What is stored under [_overrides["builtin"]], up to the contents of a
   dictionary. *)
Definition shape (self : t) : option pyobj :=
  match dict_get "builtin" (_overrides self) with
  | Some (VDict _) => Some (VDict [])
  | other => other
  end.

(* The item [_overrides["builtin"][j]] *)
Definition entry (self : t) (j : string) : option pyobj :=
  match dict_get "builtin" (_overrides self) with
  | Some (VDict builtin) => dict_get j builtin
  | _ => None
  end.

(* All that the path rules and the readers of a builtin item see. *)
Definition view (self : t) (j : string)
  : option string * gmap string pyobj * option pyobj * option pyobj :=
  (file_name self, _sub_settings self, shape self, entry self j).

(* The front-matter item leaves [_overrides["builtin"]] to the builtin
   keys: it is no [settings] dictionary that assigns ["builtin"]. *)
Definition item_ok (item : string * pyobj) : Prop :=
  item.1 = "settings" → ∀ settings, item.2 = VDict settings → dict_has "builtin" settings = false.

Section Views.
Variable os : host.

Lemma view_sub_get self self' j :
  view self' j = view self j →
  overrides_sub_get self' "builtin" j = overrides_sub_get self "builtin" j.
Proof.
  unfold view, shape, entry, overrides_sub_get. intros [= _ _ Hs He].
  destruct (dict_get "builtin" (_overrides self)) as [[]|],
           (dict_get "builtin" (_overrides self')) as [[]|]; congruence.
Qed.

Lemma view_get_builtin self self' j :
  view self' j = view self j → get_builtin os self' j = get_builtin os self j.
Proof.
  unfold view, shape, entry, get_builtin, get, sub_get. intros [= _ Hh Hs He].
  rewrite Hh. simpl.
  destruct (dict_get "builtin" (_overrides self)) as [[]|],
           (dict_get "builtin" (_overrides self')) as [[]|]; congruence.
Qed.

Lemma view_resolve_meta_path self self' target :
  view self' "basepath" = view self "basepath" →
  resolve_meta_path os self' target = resolve_meta_path os self target.
Proof.
  intros Hv. unfold resolve_meta_path. rewrite (view_sub_get _ _ _ Hv).
  injection Hv as -> _ _ _. done.
Qed.

Lemma view_collect_refs self self' refs :
  view self' "basepath" = view self "basepath" →
  collect_refs os self' refs = collect_refs os self refs.
Proof.
  intros Hv. induction refs as [|ref refs IH]; simpl; [done|].
  by rewrite (view_resolve_meta_path _ _ _ Hv), IH.
Qed.

Lemma view_destination_path self self' value :
  view self' "basepath" = view self "basepath" →
  destination_path os self' value = destination_path os self value.
Proof.
  intros Hv. unfold destination_path. by rewrite (view_resolve_meta_path _ _ _ Hv).
Qed.

(* Assignments *)

Lemma view_sub_set_builtin k v self j :
  j ≠ k → view (overrides_sub_set "builtin" k v self).2 j = view self j.
Proof.
  intros Hne. unfold overrides_sub_set, view, shape, entry.
  destruct (dict_get "builtin" (_overrides self)) as [[]|] eqn:Hb; simpl; rewrite ?Hb; try done.
  rewrite dict_get_set_eq. by rewrite dict_get_set_ne.
Qed.

Lemma entry_sub_set_builtin k v self self' :
  overrides_sub_set "builtin" k v self = (Ok (), self') →
  entry self' k = Some v ∧ shape self' = Some (VDict []).
Proof.
  unfold overrides_sub_set, shape, entry.
  destruct (dict_get "builtin" (_overrides self)) as [[]|]; try done.
  intros [= <-]. simpl. rewrite dict_get_set_eq. by rewrite dict_get_set_eq.
Qed.

Lemma view_sub_set_other outer k v self j :
  outer ≠ "builtin" → view (overrides_sub_set outer k v self).2 j = view self j.
Proof.
  intros Hne. unfold overrides_sub_set, view, shape, entry.
  destruct (dict_get outer (_overrides self)) as [[]|]; simpl; try done.
  by rewrite dict_get_set_ne.
Qed.

Lemma overrides_fold_set settings self k :
  dict_has k settings = false →
  dict_get k (_overrides (fold_left (λ s kv, set s kv.1 kv.2) settings self))
  = dict_get k (_overrides self).
Proof.
  revert self. induction settings as [|[k' v'] settings IH]; intros self; [done|].
  unfold dict_has. simpl. destruct (String.eqb_spec k k') as [->|Hne]; [done|].
  intros Hk. rewrite IH by done. simpl. by apply dict_get_set_ne.
Qed.

Lemma view_fold_set settings self j :
  dict_has "builtin" settings = false →
  view (fold_left (λ s kv, set s kv.1 kv.2) settings self) j = view self j.
Proof.
  intros Hk. unfold view, shape, entry. rewrite overrides_fold_set by done.
  by destruct (same_host_fold_set settings self) as [-> ->].
Qed.

(* One front-matter item changes at most the builtin item of its key. *)
Lemma view_apply_item key value self j :
  item_ok (key, value) → j ≠ key →
  view (apply_item os (key, value) self).2 j = view self j.
Proof.
  intros Hok Hne. unfold apply_item.
  destruct (String.eqb_spec key "settings") as [->|Hset].
  - destruct value; simpl; try (by apply view_sub_set_other).
    apply view_fold_set. by apply Hok.
  - destruct (existsb (String.eqb key) BUILTIN_KEYS); [|by apply view_sub_set_other].
    unfold seq.
    destruct (String.eqb_spec key "references") as [->|Href].
    + simpl. unfold apply_references.
      destruct (collect_refs _ _ _) as [refs|e]; [|done].
      pose proof (view_sub_set_builtin "references" (VList refs) self j Hne) as Hv.
      by destruct (overrides_sub_set _ _ _ self) as [[[]|e] self1].
    + simpl. destruct (String.eqb key "destination"); [|done].
      unfold apply_destination.
      destruct value; try done;
        match goal with
        | |- context [match ?r with Ok _ => _ | Raise _ => _ end] => destruct r
        end; try done;
        match goal with
        | |- context [if ?b then _ else _] => destruct b
        end; try done; by apply view_sub_set_builtin.
Qed.

Lemma view_for_each items self j :
  Forall item_ok items → j ∉ dict_keys items →
  view (for_each (apply_item os) items self).2 j = view self j.
Proof.
  revert self. induction items as [|[k v] items IH]; intros self Hok Hj; [done|].
  apply Forall_cons in Hok as [Hkv Hok]. unfold dict_keys in *.
  rewrite fmap_cons, not_elem_of_cons in Hj. destruct Hj as [Hne Hj].
  cbn [for_each]. unfold seq.
  pose proof (view_apply_item k v self j Hkv Hne) as Hv.
  destruct (apply_item os (k, v) self) as [[[]|e] self1]; simpl in *; [|done].
  rewrite IH by done. done.
Qed.

End Views.

(** ** The call [apply_frontmatter], step by step *)

Section Call.
Variable os : host.

(* The first appearance of a key splits a dictionary around its item. *)
Lemma dict_split k v (d : dict) :
  dict_wf d = true → dict_get k d = Some v →
  ∃ l1 l2 : dict, d = (l1 ++ ((k, v) :: l2))%list ∧ (k ∉ dict_keys l1) ∧ (k ∉ dict_keys l2).
Proof.
  unfold dict_wf, dict_keys. rewrite distinct_NoDup.
  induction d as [|[k' v'] d IH]; simpl; [done|].
  rewrite NoDup_cons. intros [Hk Hd].
  destruct (String.eqb_spec k k') as [->|Hne].
  - intros [= ->]. exists [], d. split; [done|]. split; [apply not_elem_of_nil | done].
  - intros Hget. destruct (IH Hd Hget) as (l1 & l2 & -> & H1 & H2).
    exists ((k', v') :: l1), l2. split; [done|]. split; [|done].
    rewrite fmap_cons, not_elem_of_cons. done.
Qed.

(* A normal return: the base path step, then the loop over the items
   that are left. *)
Lemma apply_frontmatter_Ok frontmatter self self' frontmatter' :
  apply_frontmatter os frontmatter self = (Ok (), self', frontmatter') →
  ∃ self1,
    match dict_get "basepath" frontmatter with
    | Some value =>
        ∃ p, get_base_path os self value = Ok p
             ∧ overrides_sub_set "builtin" "basepath" (of_path p) self = (Ok (), self1)
             ∧ frontmatter' = dict_del "basepath" frontmatter
    | None => self1 = self ∧ frontmatter' = frontmatter
    end
    ∧ for_each (apply_item os) frontmatter' self1 = (Ok (), self').
Proof.
  unfold apply_frontmatter.
  destruct (dict_get "basepath" frontmatter) as [value|].
  - destruct (get_base_path os self value) as [p|e]; [|done].
    destruct (overrides_sub_set _ _ _ self) as [[[]|e] self1] eqn:Hset; [|done].
    intros [= Hloop <-]. exists self1. split; [|by destruct (for_each _ _ _) as [[] ?]; simplify_eq].
    by exists p.
  - intros [= Hloop <-]. exists self. split; [done|].
    by destruct (for_each _ _ _) as [[] ?]; simplify_eq.
Qed.

(* The dictionary the loop runs over *)
Lemma items_left frontmatter frontmatter' :
  dict_wf frontmatter = true →
  (frontmatter' = dict_del "basepath" frontmatter
   ∨ (dict_get "basepath" frontmatter = None ∧ frontmatter' = frontmatter)) →
  dict_wf frontmatter' = true
  ∧ ("basepath" ∉ dict_keys frontmatter')
  ∧ ∀ k, k ≠ "basepath" → dict_get k frontmatter' = dict_get k frontmatter.
Proof.
  intros Hwf [->|[Hnone ->]].
  - split; [by apply dict_wf_del|]. split.
    + apply dict_get_None. by apply dict_get_del_eq.
    + intros k Hne. by apply dict_get_del_ne.
  - split; [done|]. split; [by apply dict_get_None | done].
Qed.

Lemma items_ok (frontmatter : dict) :
  dict_wf frontmatter = true → settings_keep "builtin" frontmatter = true →
  Forall item_ok frontmatter.
Proof.
  intros Hwf Hkeep. apply Forall_forall. intros [k v] Hin Hk settings Hv.
  simpl in *. subst. apply dict_get_elem in Hin; [|done].
  unfold settings_keep in Hkeep. rewrite Hin in Hkeep. by apply negb_true_iff.
Qed.

(* The loop, around the item of one key *)
Lemma loop_around k v items self1 self' :
  dict_wf items = true → Forall item_ok items →
  "basepath" ∉ dict_keys items → k ≠ "basepath" →
  dict_get k items = Some v →
  for_each (apply_item os) items self1 = (Ok (), self') →
  ∃ sa sb,
    apply_item os (k, v) sa = (Ok (), sb)
    ∧ view sa k = view self1 k
    ∧ view self' k = view sb k
    ∧ view sa "basepath" = view self1 "basepath"
    ∧ view self' "basepath" = view sa "basepath".
Proof.
  intros Hwf Hok Hbase Hk Hget Hloop.
  destruct (dict_split k v items Hwf Hget) as (l1 & l2 & -> & Hl1 & Hl2).
  apply for_each_app in Hloop as (sa & H1 & H2).
  cbn [for_each] in H2. apply seq_Ok in H2 as (sb & Hitem & H2).
  apply Forall_app in Hok as [Hok1 Hok2]. apply Forall_cons in Hok2 as [Hokk Hok2].
  unfold dict_keys in *. rewrite fmap_app, fmap_cons, not_elem_of_app, not_elem_of_cons in Hbase.
  destruct Hbase as (Hb1 & _ & Hb2).
  pose proof (view_for_each os l1 self1 k Hok1 Hl1) as V1.
  pose proof (view_for_each os l1 self1 "basepath" Hok1 Hb1) as V2.
  pose proof (view_for_each os l2 sb k Hok2 Hl2) as V3.
  pose proof (view_for_each os l2 sb "basepath" Hok2 Hb2) as V4.
  pose proof (view_apply_item os k v sa "basepath" Hokk (not_eq_sym Hk)) as V5.
  rewrite H1 in V1, V2. rewrite H2 in V3, V4. rewrite Hitem in V5. simpl in *.
  exists sa, sb. repeat split; try done. congruence.
Qed.

Lemma get_builtin_entry self j :
  shape self = Some (VDict []) → get_builtin os self j = entry self j.
Proof.
  unfold shape, get_builtin, entry, get.
  destruct (dict_get "builtin" (_overrides self)) as [[]|]; done.
Qed.

Lemma collect_refs_Ok self value refs :
  collect_refs os self value = Ok refs →
  refs = omap (kept_reference os self) value
  ∧ ∀ ref, ref ∈ value → ∃ p, resolve_meta_path os self ref = Ok p.
Proof.
  revert refs. induction value as [|ref value IH]; intros refs; simpl.
  - intros [= <-]. split; [done|]. intros ref Hin. by apply elem_of_nil in Hin.
  - unfold kept_reference at 1.
    destruct (resolve_meta_path os self ref) as [p|e] eqn:Hp; [|done]. simpl.
    destruct (collect_refs os self value) as [refs'|e]; [|done]. simpl.
    destruct (IH refs' eq_refl) as [-> Hall]. intros [= <-]. split.
    + destruct p as [f|]; [|done]. by destruct (os_path_isdir os f).
    + intros ref' [->|Hin]%elem_of_cons; eauto.
Qed.

(* The item of [references] *)
Lemma apply_item_references value sa sb :
  apply_item os ("references", value) sa = (Ok (), sb) →
  ∃ refs,
    collect_refs os sa (as_list value) = Ok refs
    ∧ entry sb "references" = Some (VList refs)
    ∧ shape sb = Some (VDict []).
Proof.
  unfold apply_item. simpl. unfold seq, apply_references.
  destruct (collect_refs _ _ _) as [refs|e]; [|done].
  destruct (overrides_sub_set _ _ _ sa) as [[[]|e] s] eqn:Hset; [|done].
  simpl. intros [= <-]. exists refs. split; [done|].
  by apply entry_sub_set_builtin in Hset.
Qed.

(* The item of [destination] *)
Lemma apply_item_destination value sa sb :
  apply_item os ("destination", value) sa = (Ok (), sb) →
  match value with
  | VNone => sb = sa
  | VStr s =>
      ∃ path, destination_path os sa s = Ok path
              ∧ if negb (os_path_exists os path) || negb (os_path_isdir os path)
                then entry sb "destination" = Some (VStr path)
                     ∧ shape sb = Some (VDict [])
                else sb = sa
  | _ => False
  end.
Proof.
  unfold apply_item. simpl. unfold seq, skip, apply_destination, destination_path.
  destruct value; simpl; try done.
  - by intros [= <-].
  - destruct (resolve_meta_path os sa _) as [directory|e]; [|done]. simpl.
    set (path := match directory with
                 | Some directory => os_path_join os directory (os_path_basename os s)
                 | None => s
                 end).
    intros H. exists path. split; [done|].
    destruct (negb (os_path_exists os path) || negb (os_path_isdir os path)).
    + by apply entry_sub_set_builtin in H.
    + unfold skip in H. by injection H as <-.
Qed.

End Call.

(** ** Overrides outside [builtin] and [meta] *)

(* The override of [key], if any, is the same before and after. *)
Definition keeps (key : string) : relation t := λ self self',
  dict_get key (_overrides self') = dict_get key (_overrides self).

#[local] Instance keeps_preorder key : PreOrder (keeps key).
Proof.
  split.
  - by intros self.
  - intros s1 s2 s3 H1 H2. unfold keeps in *. congruence.
Qed.

Section Keeps.
Variable os : host.

Lemma keeps_sub_set key outer k v :
  outer ≠ key → stable (keeps key) (overrides_sub_set outer k v).
Proof.
  intros Hne self. unfold overrides_sub_set, keeps.
  destruct (dict_get outer (_overrides self)) as [[]|]; simpl; try done.
  by apply dict_get_set_ne.
Qed.

Lemma keeps_apply_item key item :
  key ≠ "builtin" → (key = "meta" → item.1 ∈ BUILTIN_KEYS) →
  (item.1 = "settings" → ∀ settings, item.2 = VDict settings →
     dict_has key settings = false) →
  stable (keeps key) (apply_item os item).
Proof.
  intros Hb Hm Hok. destruct item as [k value]. unfold apply_item. simpl in Hm.
  assert (Hmeta : existsb (String.eqb k) BUILTIN_KEYS = false →
                  stable (keeps key) (apply_meta os k value)).
  { intros Hk. apply keeps_sub_set. intros Heq.
    apply not_true_iff_false in Hk. apply Hk. apply existsb_eqb_elem. by apply Hm. }
  destruct (String.eqb_spec k "settings") as [->|Hset].
  - destruct value; simpl; try (by apply Hmeta).
    intros self. apply overrides_fold_set. by apply Hok.
  - destruct (existsb (String.eqb k) BUILTIN_KEYS); [|by apply Hmeta].
    apply stable_seq; [apply _| |].
    + destruct (String.eqb k "references"); [|apply stable_skip; apply _].
      intros self. unfold apply_references.
      destruct (collect_refs _ _ _); [by apply keeps_sub_set | done].
    + destruct (String.eqb k "destination"); [|apply stable_skip; apply _].
      intros self. unfold apply_destination.
      destruct value; try done;
        match goal with
        | |- context [match ?r with Ok _ => _ | Raise _ => _ end] => destruct r
        end; try done;
        match goal with
        | |- context [if ?b then _ else _] => destruct b
        end; try done; by apply keeps_sub_set.
Qed.

Lemma keeps_for_each key (items : dict) :
  key ≠ "builtin" → key ≠ "meta" →
  dict_wf items = true → settings_keep key items = true →
  stable (keeps key) (for_each (apply_item os) items).
Proof.
  intros Hb Hm Hwf Hkeep. apply stable_for_each; [apply _|].
  intros [k v] Hin. apply keeps_apply_item; try done.
  simpl. intros -> settings ->. apply dict_get_elem in Hin; [|done].
  unfold settings_keep in Hkeep. rewrite Hin in Hkeep. by apply negb_true_iff.
Qed.

Lemma get_keeps self self' key d :
  keeps key self self' → same_host self self' →
  get os self' key d = get os self key d.
Proof.
  unfold keeps, get, parse_md_ext, sub_get. by intros -> [_ ->].
Qed.

End Keeps.

(** ** Calls that return *)

Section Returns.
Variable os : host.

Lemma is_path_of_path v : is_path v = true → ∃ p, v = of_path p.
Proof.
  destruct v; try done.
  - by exists None.
  - by eexists (Some _).
Qed.

Lemma is_path_fspath v : is_path v = true → v ≠ VNone → ∃ s, v = VStr s.
Proof. destruct v; try done. eauto. Qed.

Lemma builtin_ok_view self self' :
  view self' "basepath" = view self "basepath" → builtin_ok self' = builtin_ok self.
Proof.
  unfold view, shape, entry, builtin_ok. intros [= _ _ Hs He].
  destruct (dict_get "builtin" (_overrides self)) as [[]|],
           (dict_get "builtin" (_overrides self')) as [[]|]; congruence.
Qed.

Lemma builtin_ok_cases self :
  builtin_ok self = true →
  shape self = Some (VDict [])
  ∧ ∃ basepath, overrides_sub_get self "builtin" "basepath" = Ok (of_path basepath).
Proof.
  unfold builtin_ok, shape, overrides_sub_get.
  destruct (dict_get "builtin" (_overrides self)) as [[]|]; try done.
  intros Hp. split; [done|]. apply is_path_of_path in Hp as [p ->]. eauto.
Qed.

Lemma sub_set_returns outer k v self :
  (∃ d, dict_get outer (_overrides self) = Some (VDict d)) →
  ∃ self', overrides_sub_set outer k v self = (Ok (), self').
Proof. intros [d Hd]. unfold overrides_sub_set. rewrite Hd. eauto. Qed.

Lemma shape_dict self :
  shape self = Some (VDict []) →
  ∃ d, dict_get "builtin" (_overrides self) = Some (VDict d).
Proof.
  unfold shape. destruct (dict_get "builtin" (_overrides self)) as [[]|]; try done. eauto.
Qed.

Lemma resolve_meta_path_returns self target :
  builtin_ok self = true → is_path target = true →
  ∃ p, resolve_meta_path os self target = Ok p.
Proof.
  intros [_ [basepath Hbase]]%builtin_ok_cases Ht.
  unfold resolve_meta_path. rewrite Hbase. cbn [mbind res_bind].
  destruct target; try done; [eauto|].
  cbn [fspath mbind res_bind].
  destruct (negb (is_abs os _)).
  - rewrite (first_existing_find os self basepath). simpl. eauto.
  - destruct (negb (os_path_exists os _)); eauto.
Qed.

Lemma collect_refs_returns self refs :
  builtin_ok self = true → forallb is_path refs = true →
  ∃ stored, collect_refs os self refs = Ok stored.
Proof.
  intros Hok. induction refs as [|ref refs IH]; simpl; [eauto|].
  intros [Href Hrefs]%andb_true_iff.
  destruct (resolve_meta_path_returns self ref Hok Href) as [p ->].
  destruct (IH Hrefs) as [stored ->]. simpl. eauto.
Qed.

Lemma get_base_path_returns self value :
  is_path value = true → ∃ p, get_base_path os self value = Ok p.
Proof.
  intros [p ->]%is_path_of_path. unfold get_base_path.
  destruct p as [s|]; cbn [of_path fspath mbind res_bind];
    repeat match goal with
           | |- context [if ?b then _ else _] => destruct b
           end; eauto.
Qed.

(* The block of [references] *)
Lemma references_block self value :
  builtin_ok self = true → forallb is_path (as_list value) = true →
  ∃ self',
    apply_item os ("references", value) self = (Ok (), self')
    ∧ get_builtin os self' "references"
      = Some (VList (omap (kept_reference os self) (as_list value))).
Proof.
  intros Hok Hrefs.
  destruct (collect_refs_returns self _ Hok Hrefs) as [stored Hstored].
  destruct (builtin_ok_cases self Hok) as [Hshape _].
  destruct (sub_set_returns "builtin" "references" (VList stored) self (shape_dict _ Hshape))
    as [self' Hset].
  exists self'. split.
  - unfold apply_item. simpl. unfold seq, apply_references. by rewrite Hstored, Hset.
  - apply entry_sub_set_builtin in Hset as [Hentry Hshape'].
    rewrite get_builtin_entry, Hentry by done.
    by apply collect_refs_Ok in Hstored as [-> _].
Qed.

(* The block of [destination] *)
Lemma destination_block self value :
  builtin_ok self = true → is_path value = true →
  match value with
  | VStr s =>
      ∃ directory,
        resolve_meta_path os self (VStr (os_path_dirname os s)) = Ok directory
        ∧ let path := match directory with
                      | Some directory =>
                          os_path_join os directory (os_path_basename os s)
                      | None => s
                      end in
          ∃ self',
            apply_item os ("destination", value) self = (Ok (), self')
            ∧ if negb (os_path_exists os path) || negb (os_path_isdir os path)
              then get_builtin os self' "destination" = Some (VStr path)
              else self' = self
  | _ => apply_item os ("destination", value) self = (Ok (), self)
  end.
Proof.
  intros Hok Hvalue. destruct value; try done.
  destruct (resolve_meta_path_returns self (VStr (os_path_dirname os s)) Hok eq_refl)
    as [directory Hdir].
  exists directory. split; [done|]. intros path.
  destruct (builtin_ok_cases self Hok) as [Hshape _].
  destruct (sub_set_returns "builtin" "destination" (VStr path) self (shape_dict _ Hshape))
    as [self' Hset].
  unfold apply_item. simpl. unfold seq, skip, apply_destination.
  cbn [fspath mbind res_bind]. rewrite Hdir. cbn [mbind res_bind]. fold path.
  destruct (negb (os_path_exists os path) || negb (os_path_isdir os path)).
  - exists self'. split; [done|].
    apply entry_sub_set_builtin in Hset as [Hentry Hshape'].
    by rewrite get_builtin_entry.
  - by exists self.
Qed.

Lemma meta_ok_keeps self self' : keeps "meta" self self' → meta_ok self' = meta_ok self.
Proof. unfold keeps, meta_ok. by intros ->. Qed.

(* A typed item returns and leaves an object on which the next returns. *)
Lemma apply_item_returns key value self :
  key ≠ "basepath" → typed_item (key, value) = true →
  builtin_ok self = true → meta_ok self = true →
  ∃ self', apply_item os (key, value) self = (Ok (), self')
           ∧ builtin_ok self' = true ∧ meta_ok self' = true.
Proof.
  intros Hkey Htyped Hb Hm.
  assert (Hmeta : ∀ v, ∃ self', overrides_sub_set "meta" key v self = (Ok (), self')
                                ∧ builtin_ok self' = true ∧ meta_ok self' = true).
  { intros v. unfold overrides_sub_set, meta_ok, builtin_ok in *.
    destruct (dict_get "meta" (_overrides self)) as [[]|]; try done.
    eexists. split; [done|]. simpl. rewrite dict_get_set_eq.
    by rewrite dict_get_set_ne. }
  assert (Hview : ∀ self', apply_item os (key, value) self = (Ok (), self') →
                           item_ok (key, value) →
                           keeps "meta" self self' →
                           builtin_ok self' = true ∧ meta_ok self' = true).
  { intros self' Hitem Hok Hk. split.
    - rewrite <- Hb. apply builtin_ok_view.
      pose proof (view_apply_item os key value self "basepath" Hok (not_eq_sym Hkey)) as Hv.
      by rewrite Hitem in Hv.
    - rewrite <- Hm. by apply meta_ok_keeps. }
  unfold typed_item in Htyped.
  destruct (String.eqb_spec key "settings") as [->|Hset].
  - destruct value; try (apply Hmeta).
    apply andb_true_iff in Htyped as [Hsb Hsm]. apply negb_true_iff in Hsb, Hsm.
    eexists. split; [reflexivity|]. apply Hview; [done| |].
    + intros _ settings [= <-]. done.
    + unfold keeps. simpl. by apply overrides_fold_set.
  - destruct (String.eqb_spec key "references") as [->|Href].
    + destruct (references_block self value Hb Htyped) as (self' & Hitem & _).
      exists self'. split; [done|]. apply Hview; [done | by intros Heq; simpl in Heq |].
      pose proof (keeps_apply_item os "meta" ("references", value)) as Hk.
      specialize (Hk ltac:(done) ltac:(intros _; by apply (bool_decide_unpack _))
                     ltac:(by intros Heq; simpl in Heq) self).
      by rewrite Hitem in Hk.
    + destruct (String.eqb_spec key "basepath") as [->|_]; [done|].
      destruct (String.eqb_spec key "destination") as [->|Hdest].
      * simpl in Htyped.
        assert (∃ self', apply_item os ("destination", value) self = (Ok (), self'))
          as [self' Hitem].
        { pose proof (destination_block self value Hb Htyped) as Hd.
          destruct value; eauto. destruct Hd as (? & _ & ? & ? & _). eauto. }
        exists self'. split; [done|]. apply Hview; [done | by intros Heq; simpl in Heq |].
        pose proof (keeps_apply_item os "meta" ("destination", value)) as Hk.
        specialize (Hk ltac:(done) ltac:(intros _; by apply (bool_decide_unpack _))
                       ltac:(by intros Heq; simpl in Heq) self).
        by rewrite Hitem in Hk.
      * unfold apply_item.
        destruct (String.eqb_spec key "settings"); [done|].
        assert (existsb (String.eqb key) BUILTIN_KEYS = false) as ->.
        { simpl. destruct (String.eqb_spec key "basepath"); [done|].
          destruct (String.eqb_spec key "references"); [done|].
          by destruct (String.eqb_spec key "destination"). }
        apply Hmeta.
Qed.

Lemma for_each_returns (items : dict) self :
  "basepath" ∉ dict_keys items → typed_frontmatter items = true →
  builtin_ok self = true → meta_ok self = true →
  ∃ self', for_each (apply_item os) items self = (Ok (), self')
           ∧ builtin_ok self' = true ∧ meta_ok self' = true.
Proof.
  revert self. induction items as [|[k v] items IH]; intros self Hbase Htyped Hb Hm.
  - by exists self.
  - unfold dict_keys in *. rewrite fmap_cons, not_elem_of_cons in Hbase.
    destruct Hbase as [Hk Hbase]. simpl in Hk.
    apply andb_true_iff in Htyped as [Hitem Htyped].
    destruct (apply_item_returns k v self (not_eq_sym Hk) Hitem Hb Hm)
      as (self1 & H1 & Hb1 & Hm1).
    destruct (IH self1 Hbase Htyped Hb1 Hm1) as (self' & H2 & Hb2 & Hm2).
    exists self'. split; [|done]. cbn [for_each]. apply seq_Ok. eauto.
Qed.

Lemma typed_frontmatter_del k frontmatter :
  typed_frontmatter frontmatter = true →
  typed_frontmatter (dict_del k frontmatter) = true.
Proof.
  unfold typed_frontmatter. induction frontmatter as [|[k' v'] d IH]; simpl; [done|].
  intros [H1 H2]%andb_true_iff.
  destruct (String.eqb k k'); [done|]. simpl. by rewrite H1, IH.
Qed.

Lemma typed_frontmatter_get k v frontmatter :
  typed_frontmatter frontmatter = true → dict_get k frontmatter = Some v →
  typed_item (k, v) = true.
Proof.
  intros Htyped Hget. apply dict_get_Some_elem in Hget.
  unfold typed_frontmatter in Htyped. rewrite forallb_forall in Htyped.
  apply Htyped. by apply list_elem_of_In.
Qed.

(* On an object whose [builtin] and [meta] overrides are dictionaries,
   [apply_frontmatter] returns from every typed front-matter. *)
Lemma apply_frontmatter_returns frontmatter self :
  dict_wf frontmatter = true → typed_frontmatter frontmatter = true →
  builtin_ok self = true → meta_ok self = true →
  ∃ self' frontmatter',
    apply_frontmatter os frontmatter self = (Ok (), self', frontmatter')
    ∧ builtin_ok self' = true ∧ meta_ok self' = true.
Proof.
  intros Hwf Htyped Hb Hm. unfold apply_frontmatter.
  destruct (dict_get "basepath" frontmatter) as [value|] eqn:Hget.
  - pose proof (typed_frontmatter_get _ _ _ Htyped Hget) as Hvalue. simpl in Hvalue.
    destruct (get_base_path_returns self value Hvalue) as [p ->].
    destruct (builtin_ok_cases self Hb) as [Hshape _].
    destruct (sub_set_returns "builtin" "basepath" (of_path p) self (shape_dict _ Hshape))
      as [self1 Hset].
    rewrite Hset.
    destruct (items_left frontmatter (dict_del "basepath" frontmatter) Hwf)
      as (Hwf' & Hbase & _); [by left|].
    destruct (for_each_returns (dict_del "basepath" frontmatter) self1)
      as (self' & Hloop & Hb' & Hm'); try done.
    + by apply typed_frontmatter_del.
    + apply entry_sub_set_builtin in Hset as [Hentry Hshape'].
      unfold builtin_ok, shape, entry in *.
      destruct (dict_get "builtin" (_overrides self1)) as [[]|]; try done.
      rewrite Hentry. by destruct p.
    + rewrite <- Hm. apply meta_ok_keeps.
      pose proof (keeps_sub_set "meta" "builtin" "basepath" (of_path p) ltac:(done) self) as Hk.
      by rewrite Hset in Hk.
    + exists self', (dict_del "basepath" frontmatter). by rewrite Hloop.
  - apply dict_get_None in Hget.
    destruct (for_each_returns frontmatter self) as (self' & Hloop & Hb' & Hm'); try done.
    exists self', frontmatter. by rewrite Hloop.
Qed.

End Returns.

(** ** The front-matter fields *)

Section Frontmatter.
Variable os : host.

Lemma settings_keep_left key frontmatter frontmatter' :
  (∀ k, k ≠ "basepath" → dict_get k frontmatter' = dict_get k frontmatter) →
  settings_keep key frontmatter' = settings_keep key frontmatter.
Proof. intros H. unfold settings_keep. by rewrite H. Qed.

(* A normal return, around the item of a key other than [basepath] *)
Lemma call_around k v frontmatter self self' frontmatter' :
  dict_wf frontmatter = true →
  settings_keep "builtin" frontmatter = true →
  k ≠ "basepath" →
  dict_get k frontmatter = Some v →
  apply_frontmatter os frontmatter self = (Ok (), self', frontmatter') →
  ∃ sa sb,
    apply_item os (k, v) sa = (Ok (), sb)
    ∧ view sa k = view self k
    ∧ view self' k = view sb k
    ∧ view self' "basepath" = view sa "basepath".
Proof.
  intros Hwf Hkeep Hk Hget Hcall.
  apply apply_frontmatter_Ok in Hcall as (self1 & Hstep & Hloop).
  assert (Hleft : (frontmatter' = dict_del "basepath" frontmatter
                   ∨ (dict_get "basepath" frontmatter = None ∧ frontmatter' = frontmatter))
                  ∧ view self1 k = view self k).
  { destruct (dict_get "basepath" frontmatter) as [value|].
    - destruct Hstep as (p & _ & Hset & ->). split; [by left|].
      pose proof (view_sub_set_builtin "basepath" (of_path p) self k Hk) as Hv.
      by rewrite Hset in Hv.
    - destruct Hstep as [-> ->]. split; [by right | done]. }
  destruct Hleft as [Hleft Hv1].
  destruct (items_left _ _ Hwf Hleft) as (Hwf' & Hbase & Hsame).
  assert (Hok : Forall item_ok frontmatter').
  { apply items_ok; [done|]. by rewrite (settings_keep_left _ frontmatter). }
  rewrite <- Hsame in Hget by done.
  destruct (loop_around os k v _ _ _ Hwf' Hok Hbase Hk Hget Hloop)
    as (sa & sb & Hitem & V1 & V2 & V3 & V4).
  exists sa, sb. repeat split; try done. congruence.
Qed.

(* The builtin [references] after a normal return *)
Lemma references_after_call frontmatter self self' frontmatter' value :
  dict_wf frontmatter = true →
  settings_keep "builtin" frontmatter = true →
  dict_get "references" frontmatter = Some value →
  apply_frontmatter os frontmatter self = (Ok (), self', frontmatter') →
  let refs := as_list value in
  (∀ ref, ref ∈ refs → ∃ p, resolve_meta_path os self' ref = Ok p)
  ∧ get_builtin os self' "references"
    = Some (VList (omap (kept_reference os self') refs)).
Proof.
  intros Hwf Hkeep Hget Hcall refs.
  destruct (call_around "references" value _ _ _ _ Hwf Hkeep ltac:(done) Hget Hcall)
    as (sa & sb & Hitem & _ & V2 & V3).
  apply apply_item_references in Hitem as (stored & Hrefs & Hentry & Hshape).
  rewrite <- (view_collect_refs os sa self') in Hrefs by done.
  apply collect_refs_Ok in Hrefs as [-> Hall]. split; [done|].
  rewrite (view_get_builtin os sb self') by done.
  by rewrite get_builtin_entry.
Qed.

(* The builtin [destination] after a normal return *)
Lemma destination_after_call frontmatter self self' frontmatter' value :
  dict_wf frontmatter = true →
  settings_keep "builtin" frontmatter = true →
  dict_get "destination" frontmatter = Some value →
  apply_frontmatter os frontmatter self = (Ok (), self', frontmatter') →
  match value with
  | VNone => get_builtin os self' "destination" = get_builtin os self "destination"
  | VStr s =>
      ∃ directory,
        resolve_meta_path os self' (VStr (os_path_dirname os s)) = Ok directory
        ∧ let path := match directory with
                      | Some directory =>
                          os_path_join os directory (os_path_basename os s)
                      | None => s
                      end in
          get_builtin os self' "destination"
          = if negb (os_path_exists os path) || negb (os_path_isdir os path)
            then Some (VStr path)
            else get_builtin os self "destination"
  | _ => False
  end.
Proof.
  intros Hwf Hkeep Hget Hcall.
  destruct (call_around "destination" value _ _ _ _ Hwf Hkeep ltac:(done) Hget Hcall)
    as (sa & sb & Hitem & V1 & V2 & V3).
  apply apply_item_destination in Hitem.
  destruct value; try done.
  - subst sb. apply view_get_builtin. congruence.
  - destruct Hitem as (path & Hpath & Hset).
    rewrite <- (view_destination_path os sa self') in Hpath by done.
    unfold destination_path in Hpath.
    destruct (resolve_meta_path os self' _) as [directory|e]; [|done].
    exists directory. split; [done|]. simpl in *. injection Hpath as ->.
    destruct (negb _ || negb _).
    + destruct Hset as [Hentry Hshape].
      rewrite (view_get_builtin os sb self') by done. by rewrite get_builtin_entry.
    + subst sb. apply view_get_builtin. congruence.
Qed.

(** C6. When the front-matter has a [references] field, a value that is
    not a list is taken as the list of that one value; every reference
    of the list is resolved with [resolve_meta_path]; and the builtin
    [references] override that is stored is the list of the normalized
    resolved paths of the references that resolved to a path (not
    [None]) that is not a directory, in the order of the list; the
    other references are dropped.  This holds of the block for the
    field, which returns whenever the references and the stored base
    path are strings or [None]; and of the whole call, after which the
    list is still there when no [settings] dictionary of the
    front-matter has assigned ["builtin"]. *)
Theorem references_stored :
  (∀ self value,
     builtin_ok self = true →
     forallb is_path (as_list value) = true →
     ∃ self',
       apply_item os ("references", value) self = (Ok (), self')
       ∧ get_builtin os self' "references"
         = Some (VList (omap (kept_reference os self) (as_list value))))
  ∧ (∀ frontmatter self self' frontmatter' value,
       dict_wf frontmatter = true →
       settings_keep "builtin" frontmatter = true →
       dict_get "references" frontmatter = Some value →
       apply_frontmatter os frontmatter self = (Ok (), self', frontmatter') →
       let refs := as_list value in
       (∀ ref, ref ∈ refs → ∃ p, resolve_meta_path os self' ref = Ok p)
       ∧ get_builtin os self' "references"
         = Some (VList (omap (kept_reference os self') refs))).
Proof.
  split.
  - apply references_block.
  - apply references_after_call.
Qed.

(** C7. When the front-matter has a [destination] field that is not
    [None], the directory part of the value is resolved with
    [resolve_meta_path]; when that gives a directory, the destination is
    that directory joined with the base name of the value, and the value
    itself otherwise; the builtin [destination] override is set to that
    path exactly when the path does not exist or is not a directory, and
    nothing is set when the path is an existing directory.  On a [None]
    value no override is set.  This holds of the block for the field,
    which returns whenever the value and the stored base path are
    strings or [None]; and of the whole call, after which the override is
    still there when no [settings] dictionary of the front-matter has
    assigned ["builtin"]. *)
Theorem destination_stored :
  (∀ self value,
     builtin_ok self = true →
     is_path value = true →
     match value with
     | VStr s =>
         ∃ directory,
           resolve_meta_path os self (VStr (os_path_dirname os s)) = Ok directory
           ∧ let path := match directory with
                         | Some directory =>
                             os_path_join os directory (os_path_basename os s)
                         | None => s
                         end in
             ∃ self',
               apply_item os ("destination", value) self = (Ok (), self')
               ∧ if negb (os_path_exists os path) || negb (os_path_isdir os path)
                 then get_builtin os self' "destination" = Some (VStr path)
                 else self' = self
     | _ => apply_item os ("destination", value) self = (Ok (), self)
     end)
  ∧ (∀ frontmatter self self' frontmatter' value,
       dict_wf frontmatter = true →
       settings_keep "builtin" frontmatter = true →
       dict_get "destination" frontmatter = Some value →
       apply_frontmatter os frontmatter self = (Ok (), self', frontmatter') →
       match value with
       | VNone => get_builtin os self' "destination" = get_builtin os self "destination"
       | VStr s =>
           ∃ directory,
             resolve_meta_path os self' (VStr (os_path_dirname os s)) = Ok directory
             ∧ let path := match directory with
                           | Some directory =>
                               os_path_join os directory (os_path_basename os s)
                           | None => s
                           end in
               get_builtin os self' "destination"
               = if negb (os_path_exists os path) || negb (os_path_isdir os path)
                 then Some (VStr path)
                 else get_builtin os self "destination"
       | _ => False
       end).
Proof.
  split.
  - apply destination_block.
  - apply destination_after_call.
Qed.

(* The override stored under a key other than [builtin] and [meta] *)
Lemma keeps_call key frontmatter self :
  key ≠ "builtin" → key ≠ "meta" →
  dict_wf frontmatter = true → settings_keep key frontmatter = true →
  keeps key self (apply_frontmatter os frontmatter self).1.2.
Proof.
  intros Hb Hm Hwf Hkeep. unfold apply_frontmatter.
  destruct (dict_get "basepath" frontmatter) as [value|] eqn:Hget.
  - destruct (get_base_path os self value) as [p|e]; [|done].
    pose proof (keeps_sub_set key "builtin" "basepath" (of_path p) (not_eq_sym Hb) self) as H1.
    destruct (overrides_sub_set _ _ _ self) as [[[]|e] self1]; simpl in *; [|done].
    etrans; [exact H1|].
    destruct (items_left frontmatter (dict_del "basepath" frontmatter) Hwf)
      as (Hwf' & _ & Hsame); [by left|].
    apply keeps_for_each; try done. by rewrite (settings_keep_left _ frontmatter).
  - simpl. by apply keeps_for_each.
Qed.

(* The builtin [basepath] after a normal return *)
Lemma basepath_after_call frontmatter self self' frontmatter' value :
  dict_wf frontmatter = true →
  settings_keep "builtin" frontmatter = true →
  dict_get "basepath" frontmatter = Some value →
  apply_frontmatter os frontmatter self = (Ok (), self', frontmatter') →
  ∃ p, get_base_path os self value = Ok p
       ∧ get_builtin os self' "basepath" = Some (of_path p).
Proof.
  intros Hwf Hkeep Hget Hcall.
  apply apply_frontmatter_Ok in Hcall as (self1 & Hstep & Hloop).
  rewrite Hget in Hstep. destruct Hstep as (p & Hp & Hset & ->).
  exists p. split; [done|].
  destruct (items_left frontmatter (dict_del "basepath" frontmatter) Hwf)
    as (Hwf' & Hbase & Hsame); [by left|].
  assert (Hok : Forall item_ok (dict_del "basepath" frontmatter)).
  { apply items_ok; [done|]. by rewrite (settings_keep_left _ frontmatter). }
  pose proof (view_for_each os _ self1 "basepath" Hok Hbase) as Hv.
  rewrite Hloop in Hv. simpl in Hv.
  apply entry_sub_set_builtin in Hset as [Hentry Hshape].
  rewrite (view_get_builtin os self1 self') by done. by rewrite get_builtin_entry.
Qed.

Lemma builtin_key_cases field :
  field ∈ BUILTIN_KEYS →
  field = "basepath" ∨ field = "references" ∨ field = "destination".
Proof. unfold BUILTIN_KEYS. rewrite !elem_of_cons, elem_of_nil. tauto. Qed.

(** C2 (amended). For every builtin front-matter field ([basepath],
    [references], [destination]), after [apply_frontmatter] has returned
    from a front-matter that has the field, the value derived from the
    front-matter is stored under the ["builtin"] override and is read as
    [get("builtin")[field]]: the base path that [get_base_path] gives
    for [basepath], the list of the kept references for [references],
    and the resolved destination for a [destination] that is a string
    and does not resolve to an existing directory.  [get(field)] itself
    is not changed by the call: it returns what it returned before (an
    override stored under that very key, else the host store's value
    or the default).  The call does return when the front-matter is
    typed and the [builtin] and [meta] overrides are dictionaries. *)
Theorem frontmatter_field_under_builtin frontmatter self field value :
  field ∈ BUILTIN_KEYS →
  dict_wf frontmatter = true →
  settings_keep "builtin" frontmatter = true →
  settings_keep field frontmatter = true →
  dict_get field frontmatter = Some value →
  (typed_frontmatter frontmatter = true →
   builtin_ok self = true → meta_ok self = true →
   ∃ self' frontmatter',
     apply_frontmatter os frontmatter self = (Ok (), self', frontmatter'))
  ∧ (∀ self' frontmatter',
       apply_frontmatter os frontmatter self = (Ok (), self', frontmatter') →
       (∀ d, get os self' field d = get os self field d)
       ∧ (field = "basepath" →
          ∃ p, get_base_path os self value = Ok p
               ∧ get_builtin os self' field = Some (of_path p))
       ∧ (field = "references" →
          get_builtin os self' field
          = Some (VList (omap (kept_reference os self') (as_list value))))
       ∧ (field = "destination" → ∀ s, value = VStr s →
          ∃ path,
            destination_path os self' s = Ok path
            ∧ (negb (os_path_exists os path) || negb (os_path_isdir os path) = true →
               get_builtin os self' field = Some (VStr path)))).
Proof.
  intros Hfield Hwf Hkeep Hkeepf Hget. split.
  { intros Htyped Hb Hm.
    destruct (apply_frontmatter_returns os frontmatter self Hwf Htyped Hb Hm)
      as (self' & frontmatter' & Hcall & _). eauto. }
  intros self' frontmatter' Hcall.
  split; [|split; [|split]].
  - intros d. apply get_keeps.
    + pose proof (keeps_call field frontmatter self) as Hk. rewrite Hcall in Hk.
      apply Hk; try done;
        by destruct (builtin_key_cases _ Hfield) as [->|[->| ->]].
    + pose proof (same_host_apply_frontmatter os frontmatter self) as Hh.
      by rewrite Hcall in Hh.
  - intros ->. by eapply basepath_after_call.
  - intros ->. by eapply references_after_call.
  - intros -> s ->.
    pose proof (destination_after_call _ _ _ _ _ Hwf Hkeep Hget Hcall) as Hd.
    simpl in Hd. destruct Hd as (directory & Hdir & Hstored).
    unfold destination_path. rewrite Hdir. simpl.
    eexists. split; [done|]. intros Hcond. by rewrite Hcond in Hstored.
Qed.

(** C9. [apply_frontmatter] changes the dictionary of its caller: when
    the front-matter has the key [basepath], then after the call
    returns the key is gone from the caller's dictionary, and the other
    keys are in place, in their order.  The call does return when the
    front-matter is typed and the [builtin] and [meta] overrides are
    dictionaries. *)
Theorem basepath_deleted_from_argument frontmatter self :
  dict_wf frontmatter = true →
  "basepath" ∈ dict_keys frontmatter →
  (typed_frontmatter frontmatter = true →
   builtin_ok self = true → meta_ok self = true →
   ∃ self' frontmatter',
     apply_frontmatter os frontmatter self = (Ok (), self', frontmatter'))
  ∧ (∀ self' frontmatter',
       apply_frontmatter os frontmatter self = (Ok (), self', frontmatter') →
       ("basepath" ∉ dict_keys frontmatter')
       ∧ dict_keys frontmatter' = filter (λ k, k ≠ "basepath") (dict_keys frontmatter)).
Proof.
  intros Hwf Hin. split.
  - intros Htyped Hb Hm.
    destruct (apply_frontmatter_returns os frontmatter self Hwf Htyped Hb Hm)
      as (self' & frontmatter' & Hcall & _). eauto.
  - intros self' frontmatter' Hcall.
    apply apply_frontmatter_Ok in Hcall as (self1 & Hstep & _).
    destruct (dict_get "basepath" frontmatter) as [value|] eqn:Hget.
    + destruct Hstep as (p & _ & _ & ->). split.
      * apply dict_get_None. by apply dict_get_del_eq.
      * by apply dict_keys_del.
    + by apply dict_get_None in Hget.
Qed.

End Frontmatter.

(** * The example document *)

Section Examples.
Import Example.

Lemma example_call : apply_frontmatter os frontmatter self = (Ok (), self', frontmatter').
Proof. vm_compute. reflexivity. Defined.

(** C1 fails for the key ['markdown_extensions']: it is no key of the
    overrides, the host store has no entry for it, and [get] returns an
    empty dictionary, not the default. *)
Lemma get_markdown_extensions_not_default :
  ("markdown_extensions" ∉ dict_keys (_overrides self))
  ∧ _sub_settings self !! "markdown_extensions" = None
  ∧ get os self "markdown_extensions" (VStr "x") = Ok (VDict [])
  ∧ get os self "markdown_extensions" (VStr "x") ≠ Ok (VStr "x").
Proof.
  split; [|split; [|split]].
  - apply (bool_decide_unpack _). vm_compute. exact I.
  - vm_compute. reflexivity.
  - vm_compute. reflexivity.
  - vm_compute. discriminate.
Qed.

Lemma get_override_then_host_witness :
  get os (set self "theme" (VStr "dark")) "theme" VNone = Ok (VStr "dark")
  ∧ get os self "destination" VNone = Ok (VStr "/app/out.html")
  ∧ get os self "theme" (VStr "light") = Ok (VStr "light")
  ∧ get os self "markdown_extensions" (VStr "x") = Ok (VDict []).
Proof.
  split; [|split; [|split]].
  - destruct (get_override_then_host os (set self "theme" (VStr "dark")) "theme" VNone)
      as [H _].
    destruct H as (v & Hv & ->).
    + apply (bool_decide_unpack _). vm_compute. exact I.
    + vm_compute in Hv. by injection Hv as <-.
  - destruct (get_override_then_host os self "destination" VNone) as (_ & H & _).
    destruct H as [H _].
    + apply (bool_decide_unpack _). vm_compute. exact I.
    + discriminate.
    + apply H. vm_compute. reflexivity.
  - destruct (get_override_then_host os self "theme" (VStr "light")) as (_ & H & _).
    destruct H as [_ H].
    + apply (bool_decide_unpack _). vm_compute. exact I.
    + discriminate.
    + apply H. vm_compute. reflexivity.
  - destruct (get_override_then_host os self "markdown_extensions" (VStr "x"))
      as (_ & _ & H).
    destruct H as [_ H].
    + apply (bool_decide_unpack _). vm_compute. exact I.
    + reflexivity.
    + apply H. vm_compute. reflexivity.
Defined.

(** C2 fails for [destination]: the front-matter gives ["/out/x.html"],
    which the call stores under the builtin overrides, and [get] of the
    key still returns the host store's ["/app/out.html"]. *)
Lemma get_destination_not_from_frontmatter :
  dict_get "destination" frontmatter = Some (VStr "/out/x.html")
  ∧ apply_frontmatter os frontmatter self = (Ok (), self', frontmatter')
  ∧ get_builtin os self' "destination" = Some (VStr "/out/x.html")
  ∧ get os self' "destination" VNone = Ok (VStr "/app/out.html")
  ∧ get os self' "destination" VNone ≠ Ok (VStr "/out/x.html").
Proof.
  split; [|split; [|split; [|split]]].
  - reflexivity.
  - exact example_call.
  - vm_compute. reflexivity.
  - vm_compute. reflexivity.
  - vm_compute. discriminate.
Qed.

Lemma frontmatter_field_under_builtin_witness :
  get os self' "destination" VNone = get os self "destination" VNone
  ∧ ∃ path, destination_path os self' "/out/x.html" = Ok path
            ∧ get_builtin os self' "destination" = Some (VStr path).
Proof.
  destruct (frontmatter_field_under_builtin os frontmatter self
              "destination" (VStr "/out/x.html")) as [Hreturns Hafter].
  - apply (bool_decide_unpack _). vm_compute. exact I.
  - reflexivity.
  - reflexivity.
  - reflexivity.
  - reflexivity.
  - destruct (Hafter self' frontmatter' example_call) as (Hget & _ & _ & Hdest).
    split; [exact (Hget VNone)|].
    destruct (Hdest eq_refl "/out/x.html" eq_refl) as (path & Hpath & Hstored).
    exists path. split; [exact Hpath|]. apply Hstored.
    vm_compute in Hpath. injection Hpath as <-. vm_compute. reflexivity.
Defined.

Lemma resolve_meta_path_rules_witness :
  resolve_meta_path os self' (VStr "shared.md") = Ok (Some "/base/shared.md")
  ∧ resolve_meta_path os self' (VStr "/missing.md") = Ok None
  ∧ resolve_meta_path os self' (VStr "nowhere.md") = Ok (Some "nowhere.md").
Proof.
  split; [|split].
  - etrans.
    + apply (resolve_meta_path_rules os self' (Some "/base") (Some "shared.md")).
      vm_compute. reflexivity.
    + vm_compute. reflexivity.
  - etrans.
    + apply (resolve_meta_path_rules os self' (Some "/base") (Some "/missing.md")).
      vm_compute. reflexivity.
    + vm_compute. reflexivity.
  - etrans.
    + apply (resolve_meta_path_rules os self' (Some "/base") (Some "nowhere.md")).
      vm_compute. reflexivity.
    + vm_compute. reflexivity.
Defined.

(** C5 fails as an equivalence: for the document ["docs/a.md"], which
    exists, the relative input ["docs"] is not absolute, and
    [get_base_path] returns it all the same, as the directory of the
    document. *)
Lemma get_base_path_returns_relative_input :
  is_abs os (Some (os_path_expanduser os "docs")) = false
  ∧ get_base_path os (init os store (Some "docs/a.md")) (VStr "docs")
    = Ok (Some (os_path_expanduser os "docs")).
Proof.
  split.
  - vm_compute. reflexivity.
  - vm_compute. reflexivity.
Qed.

Lemma get_base_path_cases_witness :
  get_base_path os self (VStr "/base") = Ok (Some "/base")
  ∧ get_base_path os self (VStr "base") = Ok (Some "/docs")
  ∧ get_base_path os (init os store None) VNone = Ok None.
Proof.
  split; [|split].
  - destruct (get_base_path_cases os self (Some "/base")) as (H & _ & _).
    apply H. vm_compute. reflexivity.
  - destruct (get_base_path_cases os self (Some "base")) as (_ & H & _).
    apply H; vm_compute; reflexivity.
  - destruct (get_base_path_cases os (init os store None) None) as (_ & _ & H & _).
    apply H; vm_compute; reflexivity.
Defined.

Lemma references_stored_witness :
  (∃ after,
     apply_item os ("references", VStr "ref.md") self = (Ok (), after)
     ∧ get_builtin os after "references" = Some (VList [VStr "/docs/ref.md"]))
  ∧ get_builtin os self' "references"
    = Some (VList [VStr "/docs/ref.md"; VStr "/base/shared.md";
                   VStr "nowhere.md"; VStr "/home/user/notes.md"]).
Proof.
  destruct (references_stored os) as [Hblock Hcall]. split.
  - destruct (Hblock self (VStr "ref.md")) as (after & Hitem & Hstored).
    + reflexivity.
    + reflexivity.
    + exists after. split; [exact Hitem|]. rewrite Hstored. vm_compute. reflexivity.
  - destruct (Hcall frontmatter self self' frontmatter'
                (VList [VStr "ref.md"; VStr "shared.md"; VStr "/missing.md"; VStr "/out";
                        VNone; VStr "nowhere.md"; VStr "~/notes.md"]))
      as [_ H].
    + reflexivity.
    + reflexivity.
    + reflexivity.
    + exact example_call.
    + rewrite H. vm_compute. reflexivity.
Defined.

Lemma destination_stored_witness :
  apply_item os ("destination", VStr "/out") self = (Ok (), self)
  ∧ get_builtin os self' "destination" = Some (VStr "/out/x.html").
Proof.
  destruct (destination_stored os) as [Hblock Hcall]. split.
  - destruct (Hblock self (VStr "/out")) as (directory & Hdir & after & Hitem & Hset).
    + reflexivity.
    + reflexivity.
    + vm_compute in Hdir. injection Hdir as <-. vm_compute in Hset. by subst after.
  - destruct (Hcall frontmatter self self' frontmatter' (VStr "/out/x.html"))
      as (directory & Hdir & H).
    + reflexivity.
    + reflexivity.
    + reflexivity.
    + exact example_call.
    + rewrite H. vm_compute in Hdir. injection Hdir as <-. vm_compute. reflexivity.
Defined.

Lemma basepath_deleted_from_argument_witness :
  (∃ after frontmatter',
     apply_frontmatter os frontmatter self = (Ok (), after, frontmatter'))
  ∧ dict_keys frontmatter' = ["references"; "destination"; "title"; "tags"].
Proof.
  destruct (basepath_deleted_from_argument os frontmatter self) as [Hreturns Hafter].
  - reflexivity.
  - apply (bool_decide_unpack _). vm_compute. exact I.
  - split.
    + apply Hreturns; reflexivity.
    + destruct (Hafter self' frontmatter' example_call) as [_ H].
      rewrite H. vm_compute. reflexivity.
Defined.

Lemma add_meta_keeps_stored_witness :
  ∃ after merged,
    add_meta [("title", VStr "new"); ("author", VStr "me")] self' = (Ok (), after)
    ∧ dict_get "meta" (_overrides after) = Some (VDict merged)
    ∧ dict_get "title" merged = Some (VStr "T")
    ∧ dict_get "author" merged = Some (VStr "me").
Proof.
  destruct (add_meta_keeps_stored self'
              [("title", VStr "new"); ("author", VStr "me")]
              [("title", VStr "T"); ("tags", VList [VStr "a"; VStr "1"])])
    as (after & merged & Hcall & Hmeta & Hkeys).
  - reflexivity.
  - reflexivity.
  - vm_compute. reflexivity.
  - exists after, merged. split; [exact Hcall|]. split; [exact Hmeta|]. split.
    + apply (Hkeys "title"). reflexivity.
    + destruct (Hkeys "author") as [_ H]. rewrite H; reflexivity.
Defined.

End Examples.


(** * Further properties of the code *)

(** ** Decoding of the Markdown extensions *)

Section Decode.
Variable os : host.

Lemma rsplit_dot_undotted f : dotted f = false → rsplit_dot f = (false, "", f).
Proof.
  induction f as [|c f IH]; simpl; [done|].
  intros [Hc Hf]%orb_false_iff. by rewrite (IH Hf), Hc.
Qed.

Lemma rsplit_dot_join m f :
  dotted f = false → rsplit_dot (m +:+ String "."%char f) = (true, m, f).
Proof.
  intros Hf. induction m as [|c m IH]; simpl.
  - by rewrite (rsplit_dot_undotted f Hf).
  - by rewrite IH.
Qed.

(* What [rsplit_dot] gives, put together again, is the string. *)
Lemma rsplit_dot_spec s :
  ∀ b m f, rsplit_dot s = (b, m, f) →
    b = dotted s ∧ dotted f = false
    ∧ if b then s = m +:+ String "."%char f else m = "" ∧ f = s.
Proof.
  induction s as [|c s IH]; simpl; intros b m f.
  - by intros [= <- <- <-].
  - destruct (rsplit_dot s) as [[b' m'] f'].
    destruct (IH b' m' f' eq_refl) as (Hb & Hf & Hs).
    destruct b'.
    + intros [= <- <- <-]. rewrite <- Hb, orb_true_r. by rewrite Hs.
    + destruct Hs as [-> ->]. rewrite <- Hb, orb_false_r.
      destruct (Ascii.eqb_spec c "."%char) as [->|Hc].
      * by intros [= <- <- <-].
      * intros [= <- <- <-]. simpl. split; [done|]. split; [|done].
        apply orb_false_iff. split; [|done]. by apply Ascii.eqb_neq.
Qed.

(** X1. A dictionary with the key ['!!python/name'] and a string under
    it is decoded to an imported attribute: the attribute name is what
    follows the last dot of the string and has no dot, the module name
    is what comes before that dot; a string without a dot is the
    attribute name whole, with the empty module name. *)
Theorem extended_decode_import d s :
  dict_get "!!python/name" d = Some (VStr s) →
  ∃ module function,
    extended_decode os d = import_attr os module function
    ∧ dotted function = false
    ∧ (dotted s = true → s = module +:+ "." +:+ function)
    ∧ (dotted s = false → module = "" ∧ function = s).
Proof.
  intros Hd. unfold extended_decode. rewrite Hd.
  destruct (rsplit_dot s) as [[b m] f] eqn:Hs.
  destruct (rsplit_dot_spec s b m f Hs) as (Hb & Hf & Hjoin).
  exists m, f. split; [done|]. split; [done|].
  rewrite <- Hb. destruct b; split; try done.
Qed.

(* Induction on values, through their lists and dictionaries *)
Fixpoint pyobj_nested_ind (P : pyobj → Prop)
    (HNone : P VNone) (HBool : ∀ b, P (VBool b)) (HInt : ∀ n, P (VInt n))
    (HStr : ∀ s, P (VStr s))
    (HList : ∀ l, Forall P l → P (VList l))
    (HDict : ∀ d, Forall (λ kv, P kv.2) d → P (VDict d))
    (HObject : ∀ m f, P (VObject m f))
    (v : pyobj) {struct v} : P v :=
  match v with
  | VNone => HNone
  | VBool b => HBool b
  | VInt n => HInt n
  | VStr s => HStr s
  | VList l =>
      HList l ((fix go l : Forall P l :=
                  match l with
                  | [] => @List.Forall_nil _ P
                  | x :: r =>
                      @List.Forall_cons _ P x r
                        (pyobj_nested_ind P HNone HBool HInt HStr HList HDict HObject x)
                        (go r)
                  end) l)
  | VDict d =>
      HDict d ((fix go d : Forall (λ kv, P kv.2) d :=
                  match d with
                  | [] => @List.Forall_nil _ (λ kv : string * pyobj, P kv.2)
                  | (k, x) :: r =>
                      @List.Forall_cons _ (λ kv : string * pyobj, P kv.2) (k, x) r
                        (pyobj_nested_ind P HNone HBool HInt HStr HList HDict HObject x)
                        (go r)
                  end) d)
  | VObject m f => HObject m f
  end.

Lemma plain_serializable v : plain v = true → serializable v = true.
Proof.
  induction v as [| | | |l IH|d IH|] using pyobj_nested_ind; simpl; try done.
  - induction IH as [|x l Hx _ IHl]; [done|].
    intros [H1 H2]%andb_true_iff. by rewrite (Hx H1), (IHl H2).
  - intros [_ Hd]%andb_true_iff. revert Hd.
    induction IH as [|[k x] d Hx _ IHd]; [done|].
    intros [H1 H2]%andb_true_iff. simpl in Hx. by rewrite (Hx H1), (IHd H2).
Qed.

Lemma loads_hook_plain v : plain v = true → loads_hook os v = Ok v.
Proof.
  induction v as [| | | |l IH|d IH|] using pyobj_nested_ind; simpl; try done.
  - intros Hl.
    match goal with |- VList <$> ?go l = _ => assert (go l = Ok l) as -> end; [|done].
    revert Hl. induction IH as [|x l Hx _ IHl]; [done|].
    intros [H1 H2]%andb_true_iff. by rewrite (Hx H1), (IHl H2).
  - intros [Hk Hd]%andb_true_iff.
    match goal with |- ?go d ≫= _ = _ => assert (go d = Ok d) as -> end.
    { revert Hd. clear Hk. induction IH as [|[k x] d Hx _ IHd]; [done|].
      intros [H1 H2]%andb_true_iff. simpl in Hx. by rewrite (Hx H1), (IHd H2). }
    simpl. unfold extended_decode. apply negb_true_iff in Hk.
    unfold dict_has in Hk. by destruct (dict_get "!!python/name" d).
Qed.

(** X2. The Markdown extensions of the host store come back from
    [get('markdown_extensions', default)] as they are stored, whatever
    the default, when there is no override of the key and no dictionary
    of the stored value has the key ['!!python/name']: the JSON round
    trip of [parse_md_ext] changes nothing else. *)
Theorem get_markdown_extensions_plain self extensions d :
  dict_get "markdown_extensions" (_overrides self) = None →
  _sub_settings self !! "markdown_extensions" = Some extensions →
  plain extensions = true →
  get os self "markdown_extensions" d = Ok extensions.
Proof.
  intros Ho Hs Hp. unfold get, parse_md_ext, sub_get, json_roundtrip.
  rewrite Ho, Hs. simpl. rewrite (plain_serializable _ Hp). by apply loads_hook_plain.
Qed.

End Decode.

(** ** Reading, writing and a fresh object *)

Section Layers.
Variable os : host.

(** X3. [has] and [get] agree: a key that [has] does not find is read
    as the caller's default (for every key but ['markdown_extensions']),
    and a key that [has] finds is read without regard to the default. *)
Theorem has_get_agree self key :
  (has self key = false → key ≠ "markdown_extensions" →
   ∀ d, get os self key d = Ok d)
  ∧ (has self key = true → ∀ d1 d2, get os self key d1 = get os self key d2).
Proof.
  unfold has, get, dict_has, sub_has, sub_get, parse_md_ext.
  destruct (dict_get key (_overrides self)) as [v|]; simpl.
  - split; [done|]. done.
  - destruct (String.eqb_spec key "markdown_extensions") as [->|Hne].
    + split; [done|]. done.
    + split.
      * intros Hs _ d. apply bool_decide_eq_false in Hs.
        destruct (_sub_settings self !! key) as [v|]; [|done].
        exfalso. apply Hs. by eexists.
      * intros Hs d1 d2. apply bool_decide_eq_true in Hs.
        by destruct Hs as [v ->].
Qed.

(** X4. [set] writes one key: every other key is found and read as
    before, and a second [set] of the same key replaces the first. *)
Theorem set_other_keys self key value :
  (∀ key', key' ≠ key →
     has (set self key value) key' = has self key'
     ∧ ∀ d, get os (set self key value) key' d = get os self key' d)
  ∧ (∀ value', set (set self key value) key value' = set self key value').
Proof.
  split.
  - intros key' Hne. unfold has, get, dict_has, sub_has, sub_get, parse_md_ext, set. simpl.
    rewrite dict_get_set_ne by done. done.
  - intros value'. unfold set, with_overrides. simpl. f_equal.
    induction (_overrides self) as [|[k v] o IH]; simpl.
    + by rewrite String.eqb_refl.
    + destruct (String.eqb_spec key k) as [->|Hne]; simpl.
      * by rewrite String.eqb_refl.
      * destruct (String.eqb_spec key k); [done|]. by rewrite IH.
Qed.

Lemma init_overrides store fn :
  _overrides (init os store fn)
  = [("builtin",
      VDict [("references", VList []);
             ("basepath",
              of_path (match fn with
                       | Some f =>
                           if os_path_exists os f then Some (os_path_dirname os f)
                           else None
                       | None => None
                       end))]);
     ("meta", VDict [])].
Proof.
  unfold init, get_base_path. simpl. destruct fn as [f|]; simpl; [|done].
  by destruct (os_path_exists os f).
Qed.


(** X5. A fresh [Settings] object has the two overrides ["builtin"] and
    ["meta"]: no references, no meta data, and for base path the
    directory of the document when its file exists on disk, [None]
    otherwise.  Every other key but ['markdown_extensions'] is read
    from the host store, with the caller's default when the store has
    no entry. *)
Theorem init_state store fn :
  let self := init os store fn in
  get_builtin os self "references" = Some (VList [])
  ∧ get_builtin os self "basepath"
    = Some (of_path (match fn with
                     | Some f =>
                         if os_path_exists os f then Some (os_path_dirname os f)
                         else None
                     | None => None
                     end))
  ∧ (∀ d, get os self "meta" d = Ok (VDict []))
  ∧ (∀ key d, key ≠ "builtin" → key ≠ "meta" → key ≠ "markdown_extensions" →
       get os self key d = Ok (default d (store !! key))).
Proof.
  intros self. unfold get_builtin, get. subst self. rewrite init_overrides.
  split; [done|]. split; [done|]. split; [done|].
  intros key d Hb Hm He. simpl.
  destruct (String.eqb_spec key "builtin"); [done|].
  destruct (String.eqb_spec key "meta"); [done|].
  destruct (String.eqb_spec key "markdown_extensions"); [done|].
  unfold sub_get. simpl. by destruct (store !! key).
Qed.





End Layers.

(** ** Paths *)

Section PathFacts.
Variable os : host.

Lemma first_existing_sound bases target p :
  first_existing os bases target = Ok p →
  p = target ∨ os_path_exists os p = true.
Proof.
  induction bases as [|base bases IH]; simpl.
  - intros [= <-]. by left.
  - destruct base; simpl; try done.
    destruct (os_path_exists os (os_path_join os s target)) eqn:He; [|done].
    intros [= <-]. by right.
Qed.

(** X7. What [resolve_meta_path] returns can be trusted: a path it
    returns exists on disk, or else is the user-expanded target itself,
    which then is relative; and it returns [None] only for a [None]
    target and for an absolute target that does not exist. *)
Theorem resolve_meta_path_sound self target :
  (∀ p, resolve_meta_path os self target = Ok (Some p) →
     os_path_exists os p = true
     ∨ ∃ s, target = VStr s ∧ p = os_path_expanduser os s
            ∧ is_abs os (Some p) = false)
  ∧ (resolve_meta_path os self target = Ok None →
     target = VNone
     ∨ ∃ s, target = VStr s
            ∧ is_abs os (Some (os_path_expanduser os s)) = true
            ∧ os_path_exists os (os_path_expanduser os s) = false).
Proof.
  unfold resolve_meta_path.
  destruct (overrides_sub_get self "builtin" "basepath") as [basepath|e];
    cbn [mbind res_bind]; [|done].
  destruct target; cbn [fspath mbind res_bind]; try done.
  - split; [done|]. by left.
  - set (t := os_path_expanduser os s).
    destruct (is_abs os (Some t)) eqn:Habs; cbn [negb].
    + destruct (os_path_exists os t) eqn:He; cbn [negb].
      * split; [|done]. intros p [= <-]. by left.
      * split; [done|]. intros _. right. by exists s.
    + destruct (first_existing os _ t) as [p'|e] eqn:Hf; simpl; [|done].
      split; [|done]. intros p [= <-].
      apply first_existing_sound in Hf as [->|He]; [|by left].
      right. by exists s.
Qed.

(** X8. [resolve_meta_path] raises before it looks at its target when
    the ["builtin"] override is no dictionary: after [set("builtin", v)]
    with such a [v] it raises [AttributeError] for every target, [None]
    included; and [apply_frontmatter] then returns from no front-matter
    that has a [references] field, unless a [settings] dictionary of
    the front-matter assigns ["builtin"] anew. *)
Theorem builtin_not_a_dictionary self v :
  as_dict v = None →
  let self1 := set self "builtin" v in
  (∀ target, resolve_meta_path os self1 target = Raise AttributeError)
  ∧ (∀ frontmatter value self' frontmatter',
       dict_wf frontmatter = true →
       settings_keep "builtin" frontmatter = true →
       dict_get "references" frontmatter = Some value →
       apply_frontmatter os frontmatter self1 ≠ (Ok (), self', frontmatter')).
Proof.
  intros Hv self1.
  assert (Hget : dict_get "builtin" (_overrides self1) = Some v).
  { unfold self1, set. simpl. apply dict_get_set_eq. }
  split.
  - intros target. unfold resolve_meta_path, overrides_sub_get. rewrite Hget.
    by destruct v.
  - intros frontmatter value self' frontmatter' Hwf Hkeep Hrefs Hcall.
    destruct (call_around os "references" value _ _ _ _ Hwf Hkeep ltac:(done) Hrefs Hcall)
      as (sa & sb & Hitem & V1 & _ & _).
    assert (Hshape : shape sa = Some (VDict [])).
    { unfold apply_item in Hitem. simpl in Hitem. unfold seq, apply_references in Hitem.
      destruct (collect_refs _ _ _) as [refs|e]; [|done].
      unfold overrides_sub_set, shape in *.
      destruct (dict_get "builtin" (_overrides sa)) as [[]|]; done. }
    injection V1 as _ _ Hs _. rewrite Hs in Hshape.
    unfold shape in Hshape. rewrite Hget in Hshape. by destruct v.
Qed.

Lemma view_set_other self key value j :
  key ≠ "builtin" → view (set self key value) j = view self j.
Proof.
  intros Hne. unfold view, shape, entry, set. simpl. by rewrite dict_get_set_ne.
Qed.

(** X9. The path rules look at the file name and at the builtin base
    path only: [set] of a key other than ["builtin"] and [add_meta]
    change nothing of what [resolve_meta_path] returns, and no call
    changes what [get_base_path] returns. *)
Theorem path_rules_frame self :
  (∀ key value target, key ≠ "builtin" →
     resolve_meta_path os (set self key value) target = resolve_meta_path os self target)
  ∧ (∀ meta target,
       resolve_meta_path os (add_meta meta self).2 target
       = resolve_meta_path os self target)
  ∧ (∀ ops basepath,
       get_base_path os (run os ops self) basepath = get_base_path os self basepath).
Proof.
  split; [|split].
  - intros key value target Hne. apply view_resolve_meta_path.
    by apply view_set_other.
  - intros meta target. apply view_resolve_meta_path. unfold add_meta.
    destruct (dict_get "meta" (_overrides self)) as [[]|]; simpl; try done;
      by apply view_set_other.
  - intros ops basepath.
    assert (Hf : file_name (run os ops self) = file_name self).
    { unfold run. revert self. induction ops as [|o ops IH]; intros self; simpl; [done|].
      rewrite IH. by destruct (same_host_run_op os self o). }
    unfold get_base_path. by rewrite Hf.
Qed.

(** X10. A base path that [get_base_path] returns is either the
    user-expanded input, which then is absolute, exists and is a
    directory, or the directory of the document's file, which then
    exists; for a document without a file it is never a relative or a
    missing path.  An input that is neither a string nor [None] raises
    [TypeError]. *)
Theorem get_base_path_sound self basepath :
  (∀ p, get_base_path os self basepath = Ok (Some p) →
     (∃ s, basepath = VStr s ∧ p = os_path_expanduser os s
           ∧ is_abs os (Some p) = true ∧ os_path_exists os p = true
           ∧ os_path_isdir os p = true)
     ∨ (∃ f, file_name self = Some f ∧ p = os_path_dirname os f
             ∧ os_path_exists os f = true))
  ∧ (is_path basepath = false → get_base_path os self basepath = Raise TypeError).
Proof.
  unfold get_base_path. split.
  - intros p.
    assert (Hfile : (if match file_name self with
                        | Some f => os_path_exists os f
                        | None => false
                        end
                     then Ok (os_path_dirname os <$> file_name self)
                     else Ok None) = Ok (Some p) →
                    ∃ f, file_name self = Some f ∧ p = os_path_dirname os f
                         ∧ os_path_exists os f = true).
    { destruct (file_name self) as [f|]; [|done].
      destruct (os_path_exists os f) eqn:He; [|done].
      intros [= <-]. by exists f. }
    destruct basepath; cbn [fspath mbind res_bind]; try done.
    + intros H. right. by apply Hfile.
    + set (q := os_path_expanduser os s).
      destruct (os_path_exists os q) eqn:He, (is_abs os (Some q)) eqn:Ha,
               (os_path_isdir os q) eqn:Hd; cbn [andb];
        try (intros H; right; by apply Hfile).
      intros [= <-]. left. by exists s.
  - by destruct basepath.
Qed.

Lemma prefix_app s1 s2 :
  String.prefix s1 s2 = true ↔ ∃ rest, s2 = s1 +:+ rest.
Proof.
  revert s2. induction s1 as [|a s1 IH]; intros s2.
  - split; [by exists s2 | by destruct s2].
  - destruct s2 as [|b s2]; cbn [String.prefix].
    + split; [done | by intros [rest ?]].
    + destruct (Ascii.ascii_dec a b) as [->|Hne].
      * rewrite IH. split; intros [rest Hr]; exists rest.
        -- by rewrite Hr.
        -- by injection Hr.
      * split; [done|]. intros [rest [= ? _]]. done.
Qed.

(** X11. What [is_abs] takes for absolute: on a platform whose name
    starts with [win], a path that starts with an ASCII letter, a colon
    and a slash or backslash, or with two slashes; on any other
    platform, a path that starts with a slash.  [None] is not
    absolute. *)
Theorem is_abs_spec pth :
  is_abs os None = false
  ∧ (is_abs os (Some pth) = true ↔
     if startswith (sys_platform os) "win"
     then (∃ c sep rest,
             pth = String c (String ":"%char (String sep rest))
             ∧ is_letter c = true ∧ (sep = "\"%char ∨ sep = "/"%char))
          ∨ (∃ rest, pth = "//" +:+ rest)
     else ∃ rest, pth = "/" +:+ rest).
Proof.
  split; [done|]. unfold is_abs, startswith.
  assert (Hslash := prefix_app "/" pth).
  assert (Hslashes := prefix_app "//" pth).
  destruct (String.prefix "win" (sys_platform os)); [|apply Hslash].
  rewrite orb_true_iff, Hslashes.
  assert (Hdrive : re_win_drive pth = true ↔
                   ∃ c sep rest,
                     pth = String c (String ":"%char (String sep rest))
                     ∧ is_letter c = true ∧ (sep = "\"%char ∨ sep = "/"%char)).
  { unfold re_win_drive. destruct pth as [|c [|colon [|sep rest]]].
    - split; [done|]. by intros (? & ? & ? & ? & _).
    - split; [done|]. by intros (? & ? & ? & ? & _).
    - split; [done|]. by intros (? & ? & ? & ? & _).
    - rewrite !andb_true_iff, orb_true_iff, !Ascii.eqb_eq. split.
      + intros [[Hc ->] Hsep]. by exists c, sep, rest.
      + intros (c' & sep' & rest' & [= -> -> -> ->] & Hc & Hsep). done. }
  by rewrite Hdrive.
Qed.

End PathFacts.

(** ** The other items of the front-matter *)

Section Items.
Variable os : host.

Lemma overrides_fold settings self :
  _overrides (fold_left (λ s kv, set s kv.1 kv.2) settings self)
  = fold_left (λ o kv, dict_set kv.1 kv.2 o) settings (_overrides self).
Proof.
  revert self. induction settings as [|kv settings IH]; intros self; simpl; [done|].
  by rewrite IH.
Qed.

Lemma fold_set_get settings self k v :
  dict_wf settings = true → dict_get k settings = Some v →
  dict_get k (_overrides (fold_left (λ s kv, set s kv.1 kv.2) settings self)) = Some v.
Proof.
  intros Hwf Hget. rewrite overrides_fold, dict_get_fold_set.
  by rewrite dict_get_reverse, Hget.
Qed.

Lemma dict_wf_app_r (l1 l2 : dict) : dict_wf (l1 ++ l2) = true → dict_wf l2 = true.
Proof.
  unfold dict_wf, dict_keys. rewrite !distinct_NoDup, fmap_app.
  by intros (_ & _ & ?)%NoDup_app.
Qed.

Lemma dict_wf_cons_r kv (l : dict) : dict_wf (kv :: l) = true → dict_wf l = true.
Proof. apply (dict_wf_app_r [kv]). Qed.

(* A normal return, split at the item of a key other than [basepath] *)
Lemma call_split k v frontmatter self self' frontmatter' :
  dict_wf frontmatter = true →
  k ≠ "basepath" →
  dict_get k frontmatter = Some v →
  apply_frontmatter os frontmatter self = (Ok (), self', frontmatter') →
  ∃ (l1 l2 : dict) sa sb,
    frontmatter' = (l1 ++ ((k, v) :: l2))%list
    ∧ dict_wf frontmatter' = true
    ∧ (k ∉ dict_keys l2)
    ∧ (∀ j, j ≠ "basepath" → dict_get j frontmatter' = dict_get j frontmatter)
    ∧ apply_item os (k, v) sa = (Ok (), sb)
    ∧ for_each (apply_item os) l2 sb = (Ok (), self').
Proof.
  intros Hwf Hk Hget Hcall.
  apply apply_frontmatter_Ok in Hcall as (self1 & Hstep & Hloop).
  assert (Hleft : frontmatter' = dict_del "basepath" frontmatter
                  ∨ (dict_get "basepath" frontmatter = None ∧ frontmatter' = frontmatter)).
  { destruct (dict_get "basepath" frontmatter) as [value|].
    - destruct Hstep as (p & _ & _ & ->). by left.
    - destruct Hstep as [_ ->]. by right. }
  destruct (items_left _ _ Hwf Hleft) as (Hwf' & _ & Hsame).
  rewrite <- Hsame in Hget by done.
  destruct (dict_split k v _ Hwf' Hget) as (l1 & l2 & Heq & _ & Hl2).
  rewrite Heq in Hloop. apply for_each_app in Hloop as (sa & _ & H2).
  cbn [for_each] in H2. apply seq_Ok in H2 as (sb & Hitem & H2).
  exists l1, l2, sa, sb. done.
Qed.

(** X12. The [settings] dictionary of the front-matter overrides the
    host store: after the call has returned, every key of that
    dictionary other than ["builtin"] and ["meta"] is read by [get] with
    the value the front-matter gives it, whatever the host store and
    the default. *)
Theorem frontmatter_settings_override frontmatter self self' frontmatter' settings key value :
  dict_wf frontmatter = true →
  dict_get "settings" frontmatter = Some (VDict settings) →
  dict_wf settings = true →
  dict_get key settings = Some value →
  key ≠ "builtin" → key ≠ "meta" →
  apply_frontmatter os frontmatter self = (Ok (), self', frontmatter') →
  has self' key = true ∧ ∀ d, get os self' key d = Ok value.
Proof.
  intros Hwf Hset Hwfs Hget Hb Hm Hcall.
  destruct (call_split "settings" (VDict settings) _ _ _ _ Hwf ltac:(done) Hset Hcall)
    as (l1 & l2 & sa & sb & Heq & Hwf' & Hl2 & _ & Hitem & Hloop).
  unfold apply_item in Hitem. simpl in Hitem. injection Hitem as <-.
  assert (Hsb : dict_get key (_overrides self') = Some value).
  { pose proof (keeps_for_each os key l2 Hb Hm) as Hk.
    rewrite Heq in Hwf'. apply dict_wf_app_r, dict_wf_cons_r in Hwf'.
    apply dict_get_None in Hl2.
    specialize (Hk Hwf'). unfold settings_keep in Hk. rewrite Hl2 in Hk.
    specialize (Hk eq_refl (fold_left (λ s kv, set s kv.1 kv.2) settings sa)).
    rewrite Hloop in Hk. unfold keeps in Hk. simpl in Hk.
    rewrite Hk. by apply fold_set_get. }
  split.
  - unfold has, dict_has. by rewrite Hsb.
  - intros d. unfold get. by rewrite Hsb.
Qed.

(* The meta data of [k] is [val]. *)
Definition meta_is (k : string) (val : pyobj) (self : t) : Prop :=
  ∃ meta, dict_get "meta" (_overrides self) = Some (VDict meta)
          ∧ dict_get k meta = Some val.

Lemma meta_is_sub_set k val k' x self :
  k' ≠ k → meta_is k val self →
  meta_is k val (overrides_sub_set "meta" k' x self).2.
Proof.
  intros Hne (meta & Hmeta & Hk). unfold overrides_sub_set. rewrite Hmeta. simpl.
  exists (dict_set k' x meta). simpl. rewrite dict_get_set_eq. split; [done|].
  by rewrite dict_get_set_ne.
Qed.

Lemma meta_is_keeps k val self self' :
  keeps "meta" self self' → meta_is k val self → meta_is k val self'.
Proof. unfold keeps, meta_is. by intros ->. Qed.

Lemma meta_is_apply_item k val item self :
  item.1 ≠ k →
  (item.1 = "settings" → ∀ settings, item.2 = VDict settings →
     dict_has "meta" settings = false) →
  meta_is k val self → meta_is k val (apply_item os item self).2.
Proof.
  intros Hne Hok HP. destruct item as [k' x]. simpl in Hne, Hok.
  destruct (decide (k' ∈ BUILTIN_KEYS)) as [Hin|Hnin].
  - eapply meta_is_keeps; [|done].
    apply (keeps_apply_item os "meta" (k', x)); [done | done |].
    simpl. intros ->. by apply (bool_decide_pack _) in Hin.
  - assert (existsb (String.eqb k') BUILTIN_KEYS = false) as Hex.
    { apply not_true_iff_false. by rewrite existsb_eqb_elem. }
    unfold apply_item. rewrite Hex.
    destruct (String.eqb_spec k' "settings") as [->|Hset].
    + destruct x; simpl; try (by apply meta_is_sub_set).
      eapply meta_is_keeps; [|done]. unfold keeps.
      apply overrides_fold_set. by apply Hok.
    + by apply meta_is_sub_set.
Qed.

Lemma meta_is_for_each k val (items : dict) self :
  k ∉ dict_keys items →
  dict_wf items = true → settings_keep "meta" items = true →
  meta_is k val self → meta_is k val (for_each (apply_item os) items self).2.
Proof.
  intros Hk Hwf Hkeep.
  assert (Hitems : ∀ item, item ∈ items →
            item.1 ≠ k ∧ (item.1 = "settings" → ∀ settings, item.2 = VDict settings →
                            dict_has "meta" settings = false)).
  { intros [k' x] Hin. split.
    - simpl. intros ->. apply Hk. apply list_elem_of_fmap. by exists (k, x).
    - simpl. intros -> settings ->. apply dict_get_elem in Hin; [|done].
      unfold settings_keep in Hkeep. rewrite Hin in Hkeep. by apply negb_true_iff. }
  clear Hk Hwf Hkeep. revert self.
  induction items as [|item items IH]; intros self HP; [done|].
  cbn [for_each]. unfold seq.
  destruct (Hitems item ltac:(left)) as [Hne Hok].
  pose proof (meta_is_apply_item k val item self Hne Hok HP) as H1.
  destruct (apply_item os item self) as [[[]|e] self1]; simpl in *; [|done].
  apply IH; [|done]. intros item' Hin. apply Hitems. by right.
Qed.

(** X13. Every key of the front-matter that is no builtin key (and no
    [settings] dictionary) becomes meta data, as a string: after the
    call has returned, [get("meta")[key]] is [str(value)], or the list
    of the [str(v)] for a list, also when meta data of that key was
    stored before.  The [settings] dictionary of the front-matter, if
    any, is taken not to assign ["meta"]. *)
Theorem frontmatter_meta_stored frontmatter self self' frontmatter' key value :
  dict_wf frontmatter = true →
  settings_keep "meta" frontmatter = true →
  dict_get key frontmatter = Some value →
  key ∉ BUILTIN_KEYS →
  (key = "settings" → as_dict value = None) →
  apply_frontmatter os frontmatter self = (Ok (), self', frontmatter') →
  get_meta os self' key = Some (meta_value os value).
Proof.
  intros Hwf Hkeep Hget Hkey Hset Hcall.
  assert (Hkb : key ≠ "basepath").
  { intros ->. apply Hkey. by apply (bool_decide_unpack _). }
  destruct (call_split key value _ _ _ _ Hwf Hkb Hget Hcall)
    as (l1 & l2 & sa & sb & Heq & Hwf' & Hl2 & Hsame & Hitem & Hloop).
  assert (HP : meta_is key (meta_value os value) sb).
  { unfold apply_item in Hitem.
    assert (existsb (String.eqb key) BUILTIN_KEYS = false) as Hex.
    { apply not_true_iff_false. by rewrite existsb_eqb_elem. }
    rewrite Hex in Hitem.
    assert ((if String.eqb key "settings" then as_dict value else None) = None) as Hn.
    { destruct (String.eqb_spec key "settings"); [by apply Hset | done]. }
    rewrite Hn in Hitem. unfold apply_meta, overrides_sub_set in Hitem.
    destruct (dict_get "meta" (_overrides sa)) as [[]|]; try done.
    injection Hitem as <-. eexists. simpl. rewrite dict_get_set_eq. split; [done|].
    apply dict_get_set_eq. }
  assert (Hkeep2 : settings_keep "meta" l2 = true).
  { destruct (decide (key = "settings")) as [->|Hne].
    - apply dict_get_None in Hl2. unfold settings_keep. by rewrite Hl2.
    - assert (Hfm : settings_keep "meta" frontmatter' = true).
      { by rewrite (settings_keep_left _ frontmatter). }
      unfold settings_keep in *. rewrite Heq, dict_get_app in Hfm.
      destruct (dict_get "settings" l1) as [x|] eqn:H1.
      + destruct (dict_get "settings" l2) as [y|] eqn:H2; [|done].
        exfalso. apply dict_get_Some_elem in H1, H2.
        rewrite Heq in Hwf'. unfold dict_wf, dict_keys in Hwf'.
        rewrite distinct_NoDup, fmap_app in Hwf'.
        apply NoDup_app in Hwf' as (_ & Hdisj & _).
        apply (Hdisj "settings").
        * apply list_elem_of_fmap. by exists ("settings", x).
        * right. apply list_elem_of_fmap. by exists ("settings", y).
      + cbn [dict_get] in Hfm.
        destruct (String.eqb_spec "settings" key) as [Hk|_]; [by subst | done]. }
  rewrite Heq in Hwf'. apply dict_wf_app_r, dict_wf_cons_r in Hwf'.
  pose proof (meta_is_for_each key _ l2 sb Hl2 Hwf' Hkeep2 HP) as Hend.
  rewrite Hloop in Hend. destruct Hend as (meta & Hmeta & Hval). simpl in Hmeta.
  unfold get_meta, get. by rewrite Hmeta.
Qed.

End Items.

(** ** Calls that raise *)

Section Raises.
Variable os : host.

(** X14. A [basepath] of the front-matter that is neither a string nor
    [None] makes [apply_frontmatter] raise [TypeError] at once: nothing
    is stored, no other item is looked at, and the key [basepath] is
    still in the caller's dictionary. *)
Theorem frontmatter_bad_basepath frontmatter self value :
  dict_get "basepath" frontmatter = Some value →
  is_path value = false →
  apply_frontmatter os frontmatter self = (Raise TypeError, self, frontmatter).
Proof.
  intros Hget Hvalue. unfold apply_frontmatter. rewrite Hget.
  by destruct value.
Qed.

Lemma sub_set_raise outer k v self e self' :
  overrides_sub_set outer k v self = (Raise e, self') → self' = self.
Proof.
  unfold overrides_sub_set.
  destruct (dict_get outer (_overrides self)) as [[]|]; congruence.
Qed.

(* An item that raises has stored nothing. *)
Lemma apply_item_raise item self e self' :
  apply_item os item self = (Raise e, self') → self' = self.
Proof.
  destruct item as [key value]. unfold apply_item.
  destruct (if String.eqb key "settings" then as_dict value else None); [done|].
  destruct (existsb (String.eqb key) BUILTIN_KEYS); [|apply sub_set_raise].
  unfold seq, skip.
  destruct (String.eqb_spec key "references") as [->|Href]; simpl.
  - unfold apply_references.
    destruct (collect_refs _ _ _) as [refs|e']; [|congruence].
    destruct (overrides_sub_set _ _ _ self) as [[[]|e'] s] eqn:Hset; [done|].
    apply sub_set_raise in Hset. congruence.
  - destruct (String.eqb key "destination"); [|done].
    unfold apply_destination, skip.
    destruct value; try congruence;
      match goal with
      | |- context [match ?r with Ok _ => _ | Raise _ => _ end] => destruct r
      end; try congruence;
      match goal with
      | |- context [if ?b then _ else _] => destruct b
      end; try congruence; apply sub_set_raise.
Qed.

Lemma for_each_app_Ok {A} (body : A → stmt) l1 l2 self self1 :
  for_each body l1 self = (Ok (), self1) →
  for_each body (l1 ++ l2) self = for_each body l2 self1.
Proof.
  revert self. induction l1 as [|x l1 IH]; intros self; simpl.
  - by intros [= <-].
  - intros (s & Hx & Hl)%seq_Ok. unfold seq. rewrite Hx. by apply IH.
Qed.

(* [apply_frontmatter] is its first step, then its loop. *)
Lemma apply_frontmatter_steps frontmatter self :
  apply_frontmatter os frontmatter self
  = match basepath_step os frontmatter self with
    | (Ok _, self1, items) => (for_each (apply_item os) items self1, items)
    | (Raise e, self1, items) => (Raise e, self1, items)
    end.
Proof.
  unfold apply_frontmatter, basepath_step.
  destruct (dict_get "basepath" frontmatter) as [value|]; [|done].
  destruct (get_base_path os self value) as [p|e]; [|done].
  by destruct (overrides_sub_set _ _ _ self) as [[[]|e] self1].
Qed.

(** X15. The loop over the front-matter stops at the first item that
    raises.  For every front-matter, with or without the key
    [basepath]: when the first step has stored the base path, if any,
    and deleted its key, and the loop meets an item that raises, the
    call raises that exception, the base path and the items before the
    raising one stay applied, the raising item itself has stored
    nothing (a list of references is stored only when every reference
    resolved), the items after it are not looked at, and the key
    [basepath] stays deleted from the caller's dictionary. *)
Theorem frontmatter_first_raise frontmatter (before after : dict) item
    self self0 self1 self2 e :
  basepath_step os frontmatter self = (Ok (), self0, (before ++ item :: after)%list) →
  for_each (apply_item os) before self0 = (Ok (), self1) →
  apply_item os item self1 = (Raise e, self2) →
  self2 = self1
  ∧ apply_frontmatter os frontmatter self
    = (Raise e, self1, (before ++ item :: after)%list).
Proof.
  intros Hstep Hbefore Hitem.
  pose proof (apply_item_raise _ _ _ _ Hitem) as ->. split; [done|].
  rewrite apply_frontmatter_steps, Hstep.
  rewrite (for_each_app_Ok _ before (item :: after) self0 self1 Hbefore).
  cbn [for_each]. unfold seq. by rewrite Hitem.
Qed.

(** X16. [apply_frontmatter] writes the overrides ["builtin"] and
    ["meta"] and the keys of the front-matter's [settings] dictionary,
    and no other: whether the call returns or raises, every other key
    is found by [has] and read by [get] as before. *)
Theorem frontmatter_other_keys frontmatter self key :
  dict_wf frontmatter = true →
  key ≠ "builtin" → key ≠ "meta" →
  settings_keep key frontmatter = true →
  let self' := (apply_frontmatter os frontmatter self).1.2 in
  has self' key = has self key ∧ ∀ d, get os self' key d = get os self key d.
Proof.
  intros Hwf Hb Hm Hkeep self'.
  pose proof (keeps_call os key frontmatter self Hb Hm Hwf Hkeep) as Hk.
  pose proof (same_host_apply_frontmatter os frontmatter self) as Hh.
  fold self' in Hk, Hh. split.
  - unfold has, dict_has, sub_has. destruct Hh as [_ ->]. by rewrite Hk.
  - intros d. by apply get_keeps.
Qed.

End Raises.

(** ** Meta data *)

Section Meta.
Variable os : host.

Lemma dict_keys_set k v (d : dict) x :
  x ∈ dict_keys (dict_set k v d) ↔ x = k ∨ x ∈ dict_keys d.
Proof.
  destruct (decide (x = k)) as [->|Hne].
  - split; [by left|]. intros _.
    destruct (decide (k ∈ dict_keys (dict_set k v d))) as [|Hn]; [done|].
    apply dict_get_None in Hn. by rewrite dict_get_set_eq in Hn.
  - split.
    + intros Hin. right.
      destruct (decide (x ∈ dict_keys d)) as [|Hn]; [done|].
      apply dict_get_None in Hn. rewrite <- (dict_get_set_ne k x v) in Hn by done.
      by apply dict_get_None in Hn.
    + intros [?|Hin]; [done|].
      destruct (decide (x ∈ dict_keys (dict_set k v d))) as [|Hn]; [done|].
      apply dict_get_None in Hn. rewrite dict_get_set_ne in Hn by done.
      by apply dict_get_None in Hn.
Qed.

Lemma dict_wf_set k v (d : dict) : dict_wf d = true → dict_wf (dict_set k v d) = true.
Proof.
  unfold dict_wf. rewrite !distinct_NoDup.
  induction d as [|[k' v'] d IH].
  - intros _. apply NoDup_singleton.
  - unfold dict_keys in *. rewrite fmap_cons, NoDup_cons. intros [Hk Hd].
    cbn [dict_set]. destruct (String.eqb_spec k k') as [->|Hne].
    + rewrite fmap_cons. by apply NoDup_cons.
    + rewrite fmap_cons. apply NoDup_cons. split; [|by apply IH].
      intros [?|?]%(dict_keys_set k v d k'); [congruence | done].
Qed.

Lemma dict_wf_of_items items : dict_wf (dict_of_items items) = true.
Proof.
  unfold dict_of_items.
  assert (H : ∀ d, dict_wf d = true →
                   dict_wf (fold_left (λ d kv, dict_set kv.1 kv.2 d) items d) = true).
  { induction items as [|kv items IH]; intros d Hd; simpl; [done|].
    apply IH. by apply dict_wf_set. }
  by apply H.
Qed.

(** X17. [add_meta] writes the override ["meta"] and no other: every
    other key is found and read as before.  When the stored meta data
    is no dictionary the call raises [AttributeError] and changes
    nothing; when there is no override ["meta"] at all, the meta data
    becomes the dictionary of the argument. *)
Theorem add_meta_frame self meta :
  (∀ key, key ≠ "meta" →
     has (add_meta meta self).2 key = has self key
     ∧ ∀ d, get os (add_meta meta self).2 key d = get os self key d)
  ∧ (∀ v, dict_get "meta" (_overrides self) = Some v → as_dict v = None →
       add_meta meta self = (Raise AttributeError, self))
  ∧ (dict_get "meta" (_overrides self) = None → dict_wf meta = true →
     ∃ self' merged,
       add_meta meta self = (Ok (), self')
       ∧ dict_get "meta" (_overrides self') = Some (VDict merged)
       ∧ ∀ k, dict_get k merged = dict_get k meta).
Proof.
  split; [|split].
  - intros key Hne.
    assert (Hk : keeps key self (add_meta meta self).2 ∧ same_host self (add_meta meta self).2).
    { split; [|apply same_host_add_meta]. unfold add_meta, keeps.
      destruct (dict_get "meta" (_overrides self)) as [[]|]; simpl; try done;
        by apply dict_get_set_ne. }
    destruct Hk as [Hk Hh]. split.
    + unfold has, dict_has, sub_has. destruct Hh as [_ ->]. by rewrite Hk.
    + intros d. by apply get_keeps.
  - intros v Hv Hd. unfold add_meta. rewrite Hv. by destruct v.
  - intros Hnone Hwf. unfold add_meta. rewrite Hnone.
    eexists _, _. split; [done|]. split.
    + unfold set. simpl. apply dict_get_set_eq.
    + intros k. rewrite dict_get_of_items by done. done.
Qed.

(** X18. Meta data that is added first wins: after [add_meta(m1)] and
    then [add_meta(m2)], a key has the value that was stored before the
    two calls if there was one, else the value of [m1] if it has the
    key, else the value of [m2]. *)
Theorem add_meta_twice self stored m1 m2 :
  dict_wf stored = true → dict_wf m1 = true → dict_wf m2 = true →
  dict_get "meta" (_overrides self) = Some (VDict stored) →
  ∃ self' merged,
    seq (add_meta m1) (add_meta m2) self = (Ok (), self')
    ∧ dict_get "meta" (_overrides self') = Some (VDict merged)
    ∧ ∀ k, dict_get k merged
           = match dict_get k stored with
             | Some v => Some v
             | None =>
                 match dict_get k m1 with
                 | Some v => Some v
                 | None => dict_get k m2
                 end
             end.
Proof.
  intros Hs H1 H2 Hstored. unfold seq, add_meta at 1. rewrite Hstored.
  unfold add_meta, set. simpl. rewrite dict_get_set_eq. simpl.
  eexists _, _. split; [done|]. split; [apply dict_get_set_eq|].
  intros k. rewrite dict_get_of_items; [|done|apply dict_wf_of_items].
  rewrite dict_get_of_items by done.
  by destruct (dict_get k stored), (dict_get k m1), (dict_get k m2).
Qed.

End Meta.

(** * The further properties on the example documents *)

Section MoreExamples.
Import Example.

Lemma extended_decode_import_witness :
  ∃ module function,
    extended_decode os Example2.named = import_attr os module function
    ∧ dotted function = false
    ∧ "pymdownx.emoji.to_svg" = module +:+ "." +:+ function.
Proof.
  destruct (extended_decode_import os Example2.named "pymdownx.emoji.to_svg")
    as (module & function & Hd & Hf & Hjoin & _).
  - reflexivity.
  - exists module, function. split; [exact Hd|]. split; [exact Hf|].
    apply Hjoin. reflexivity.
Defined.

Lemma get_markdown_extensions_plain_witness :
  get os Example2.self "markdown_extensions" (VStr "x") = Ok Example2.extensions.
Proof.
  apply (get_markdown_extensions_plain os Example2.self Example2.extensions (VStr "x")).
  - reflexivity.
  - vm_compute. reflexivity.
  - reflexivity.
Defined.

Lemma has_get_agree_witness :
  get os self "theme" (VStr "light") = Ok (VStr "light")
  ∧ get os self "enable_highlight" VNone = get os self "enable_highlight" (VBool false).
Proof.
  split.
  - destruct (has_get_agree os self "theme") as [H _].
    apply H; [vm_compute; reflexivity | discriminate].
  - destruct (has_get_agree os self "enable_highlight") as [_ H].
    apply H. vm_compute. reflexivity.
Defined.

Lemma set_other_keys_witness :
  get os (set self "theme" (VStr "dark")) "destination" VNone
  = get os self "destination" VNone.
Proof.
  destruct (set_other_keys os self "theme" (VStr "dark")) as [H _].
  destruct (H "destination") as [_ Hget]; [discriminate|]. apply Hget.
Defined.

Lemma init_state_witness :
  get os self "destination" VNone = Ok (VStr "/app/out.html")
  ∧ get_builtin os Example2.self "basepath" = Some VNone.
Proof.
  split.
  - destruct (init_state os store (Some "/docs/a.md")) as (_ & _ & _ & H).
    etrans; [apply (H "destination" VNone); discriminate|].
    vm_compute. reflexivity.
  - destruct (init_state os Example2.store None) as (_ & H & _). exact H.
Defined.


Lemma resolve_meta_path_sound_witness :
  os_path_exists os "/base/shared.md" = true
  ∨ ∃ s, VStr "shared.md" = VStr s ∧ "/base/shared.md" = os_path_expanduser os s
         ∧ is_abs os (Some "/base/shared.md") = false.
Proof.
  destruct (resolve_meta_path_sound os self' (VStr "shared.md")) as [H _].
  apply H. vm_compute. reflexivity.
Defined.

Lemma builtin_not_a_dictionary_witness :
  resolve_meta_path os (set self "builtin" (VStr "oops")) VNone = Raise AttributeError
  ∧ (apply_frontmatter os frontmatter (set self "builtin" (VStr "oops"))).1.1 ≠ Ok ().
Proof.
  destruct (builtin_not_a_dictionary os self (VStr "oops") eq_refl) as [Hresolve Hcall].
  split; [apply Hresolve|].
  destruct (apply_frontmatter os frontmatter (set self "builtin" (VStr "oops")))
    as [[r after] frontmatter'] eqn:E.
  simpl. intros ->.
  apply (Hcall frontmatter
           (VList [VStr "ref.md"; VStr "shared.md"; VStr "/missing.md"; VStr "/out";
                   VNone; VStr "nowhere.md"; VStr "~/notes.md"]) after frontmatter');
    [reflexivity | reflexivity | reflexivity | exact E].
Defined.

Lemma path_rules_frame_witness :
  resolve_meta_path os (set self "theme" (VStr "dark")) (VStr "ref.md")
  = resolve_meta_path os self (VStr "ref.md").
Proof.
  destruct (path_rules_frame os self) as [H _]. apply H. discriminate.
Defined.

Lemma get_base_path_sound_witness :
  (∃ s, VStr "/base" = VStr s ∧ "/base" = os_path_expanduser os s
        ∧ is_abs os (Some "/base") = true ∧ os_path_exists os "/base" = true
        ∧ os_path_isdir os "/base" = true)
  ∨ (∃ f, file_name Example2.self = Some f ∧ "/base" = os_path_dirname os f
          ∧ os_path_exists os f = true).
Proof.
  destruct (get_base_path_sound os Example2.self (VStr "/base")) as [H _].
  apply H. vm_compute. reflexivity.
Defined.

Lemma is_abs_spec_witness : ∃ rest, "/docs/a.md" = "/" +:+ rest.
Proof.
  destruct (is_abs_spec os "/docs/a.md") as [_ [H _]].
  apply H. vm_compute. reflexivity.
Defined.

Lemma frontmatter_settings_override_witness :
  get os Example2.self "enable_highlight" VNone = Ok (VBool true)
  ∧ get os (apply_frontmatter os Example2.with_settings Example2.self).1.2
        "enable_highlight" VNone = Ok (VBool false).
Proof.
  split; [vm_compute; reflexivity|].
  eapply (frontmatter_settings_override os Example2.with_settings Example2.self).
  - reflexivity.
  - reflexivity.
  - reflexivity.
  - reflexivity.
  - discriminate.
  - discriminate.
  - vm_compute. reflexivity.
Defined.

Lemma frontmatter_meta_stored_witness :
  get_meta os self' "tags" = Some (VList [VStr "a"; VStr "1"]).
Proof.
  rewrite (frontmatter_meta_stored os frontmatter self self' frontmatter'
             "tags" (VList [VStr "a"; VInt 1])).
  - vm_compute. reflexivity.
  - reflexivity.
  - reflexivity.
  - reflexivity.
  - intros Hin. by apply (bool_decide_pack _) in Hin.
  - discriminate.
  - exact example_call.
Defined.

Lemma frontmatter_bad_basepath_witness :
  apply_frontmatter os [("title", VStr "T"); ("basepath", VInt 3)] self
  = (Raise TypeError, self, [("title", VStr "T"); ("basepath", VInt 3)]).
Proof.
  apply (frontmatter_bad_basepath os _ self (VInt 3)); reflexivity.
Defined.

Lemma frontmatter_first_raise_witness :
  ∃ self1,
    get_builtin os self1 "basepath" = Some (VStr "/base")
    ∧ get_meta os self1 "title" = Some (VStr "T")
    ∧ get_builtin os self1 "references" = Some (VList [])
    ∧ apply_frontmatter os
        [("title", VStr "T"); ("basepath", VStr "/base");
         ("references", VList [VStr "ref.md"; VInt 1]); ("author", VStr "me")] self
      = (Raise TypeError, self1,
         [("title", VStr "T"); ("references", VList [VStr "ref.md"; VInt 1]);
          ("author", VStr "me")]).
Proof.
  set (frontmatter := [("title", VStr "T"); ("basepath", VStr "/base");
                       ("references", VList [VStr "ref.md"; VInt 1]);
                       ("author", VStr "me")]).
  set (self0 := (basepath_step os frontmatter self).1.2).
  set (self1 := (for_each (apply_item os) [("title", VStr "T")] self0).2).
  destruct (frontmatter_first_raise os frontmatter
              [("title", VStr "T")] [("author", VStr "me")]
              ("references", VList [VStr "ref.md"; VInt 1])
              self self0 self1 self1 TypeError)
    as [_ H].
  - vm_compute. reflexivity.
  - vm_compute. reflexivity.
  - vm_compute. reflexivity.
  - exists self1. split; [vm_compute; reflexivity|].
    split; [vm_compute; reflexivity|]. split; [vm_compute; reflexivity | exact H].
Defined.

Lemma frontmatter_other_keys_witness :
  get os self' "enable_highlight" VNone = get os self "enable_highlight" VNone.
Proof.
  destruct (frontmatter_other_keys os frontmatter self "enable_highlight") as [_ H].
  - reflexivity.
  - discriminate.
  - discriminate.
  - reflexivity.
  - exact (H VNone).
Defined.

Lemma add_meta_frame_witness :
  add_meta [("author", VStr "me")] (set self "meta" (VStr "oops"))
  = (Raise AttributeError, set self "meta" (VStr "oops")).
Proof.
  destruct (add_meta_frame os (set self "meta" (VStr "oops")) [("author", VStr "me")])
    as (_ & H & _).
  apply (H (VStr "oops")); reflexivity.
Defined.

Lemma add_meta_twice_witness :
  ∃ after merged,
    seq (add_meta [("title", VStr "one"); ("author", VStr "me")])
        (add_meta [("author", VStr "you"); ("date", VStr "today")]) self'
    = (Ok (), after)
    ∧ dict_get "meta" (_overrides after) = Some (VDict merged)
    ∧ dict_get "title" merged = Some (VStr "T")
    ∧ dict_get "author" merged = Some (VStr "me")
    ∧ dict_get "date" merged = Some (VStr "today").
Proof.
  destruct (add_meta_twice self'
              [("title", VStr "T"); ("tags", VList [VStr "a"; VStr "1"])]
              [("title", VStr "one"); ("author", VStr "me")]
              [("author", VStr "you"); ("date", VStr "today")])
    as (after & merged & Hcall & Hmeta & Hkeys).
  - reflexivity.
  - reflexivity.
  - reflexivity.
  - vm_compute. reflexivity.
  - exists after, merged. split; [exact Hcall|]. split; [exact Hmeta|].
    rewrite !Hkeys. vm_compute. done.
Defined.

End MoreExamples.
